(** * Industry capital-flow ranking: a shallow embedding

    The development embeds [src/Industrytrending.py] (class
    [IndustryFlowAnalyzer]) and [src/ParallelUtils.py] and proves the
    properties the specification states about them.

    Modelling conventions.
    - A Python [str] is a list of Unicode code points ([pystr]).
    - Quantities read from the provider are exact decimal numbers
      [m * 10^e]; binary64 rounding and overflow are not modelled.  The
      special values [nan], [inf] and [-inf] are kept, because the code
      tests for them ([pd.isna], [fillna]) and Python's [float] reads them.
    - Percentile scores are exact rationals or NaN.
    - pandas, numpy, the file system and the thread pool are modelled by
      the part of their documented behaviour the code relies on. *)

From Stdlib Require Import ZArith NArith QArith Qpower Qround Lqa List Bool Lia String Ascii.
From stdpp Require Import base option list gmap strings.

Open Scope Z_scope.

(** ** Python strings *)

Module PyStr.

Definition char := N.
Definition pystr := list char.

(** An ASCII literal as a sequence of code points. *)
Fixpoint lit (s : string) : pystr :=
  match s with
  | EmptyString => []
  | String a s' => N_of_ascii a :: lit s'
  end.

(** '亿' (U+4EBF) and '万' (U+4E07). *)
Definition yi : char := 0x4EBF%N.
Definition wan : char := 0x4E07%N.
Definition percent : char := 0x25%N.

(** [str.isspace] for one code point. *)
Definition is_space (c : char) : bool :=
  ((0x09 <=? c) && (c <=? 0x0D) || (0x1C <=? c) && (c <=? 0x20)
   || (c =? 0x85) || (c =? 0xA0) || (c =? 0x1680)
   || (0x2000 <=? c) && (c <=? 0x200A)
   || (c =? 0x2028) || (c =? 0x2029) || (c =? 0x202F)
   || (c =? 0x205F) || (c =? 0x3000))%N.

Fixpoint lstrip (s : pystr) : pystr :=
  match s with
  | c :: s' => if is_space c then lstrip s' else s
  | [] => []
  end.

Definition rstrip (s : pystr) : pystr := rev (lstrip (rev s)).

(** [s.strip()] *)
Definition strip (s : pystr) : pystr := rstrip (lstrip s).

(** [c in s] for a one-character needle. *)
Definition contains (c : char) (s : pystr) : bool := existsb (N.eqb c) s.

(** [s.replace(c, '')] for a one-character needle. *)
Definition remove (c : char) (s : pystr) : pystr :=
  List.filter (fun x => negb (N.eqb c x)) s.

Definition eqb (s t : pystr) : bool := bool_decide (s = t).

End PyStr.
Import PyStr.

(** ** Floating-point values *)

Module PyFloat.

(** A finite value is [mant * 10^expo]. *)
Inductive pyfloat :=
| NaN
| Inf (negative : bool)
| Fin (mant : Z) (expo : Z).

Definition zero : pyfloat := Fin 0 0.

(** The rational a finite value denotes. *)
Definition dval (m e : Z) : Q := inject_Z m * Qpower (10 # 1) e.

Definition isnan (x : pyfloat) : bool :=
  match x with NaN => true | _ => false end.

Definition is_zero (x : pyfloat) : bool :=
  match x with Fin m _ => m =? 0 | _ => false end.

Definition sign_neg (x : pyfloat) : bool :=
  match x with Fin m _ => m <? 0 | Inf b => b | NaN => false end.

(** [x * y] *)
Definition fmul (x y : pyfloat) : pyfloat :=
  match x, y with
  | NaN, _ | _, NaN => NaN
  | Fin m1 e1, Fin m2 e2 => Fin (m1 * m2) (e1 + e2)
  | Inf b, o | o, Inf b =>
      if is_zero o then NaN else Inf (xorb b (sign_neg o))
  end.

(** [x + y]: the mantissas are aligned on the smaller exponent. *)
Definition fadd (x y : pyfloat) : pyfloat :=
  match x, y with
  | NaN, _ | _, NaN => NaN
  | Fin m1 e1, Fin m2 e2 =>
      let e := Z.min e1 e2 in
      Fin (m1 * 10 ^ (e1 - e) + m2 * 10 ^ (e2 - e)) e
  | Inf a, Inf b => if Bool.eqb a b then Inf a else NaN
  | Inf a, Fin _ _ | Fin _ _, Inf a => Inf a
  end.

(** [x / 10000.0] *)
Definition div10000 (x : pyfloat) : pyfloat :=
  match x with
  | Fin m e => Fin m (e - 4)
  | _ => x
  end.

(** [x * 10000] *)
Definition mul10000 (x : pyfloat) : pyfloat := fmul x (Fin 1 4).

(** Order on the values that are not NaN; [None] when one side is NaN. *)
Definition fcompare (x y : pyfloat) : option comparison :=
  match x, y with
  | NaN, _ | _, NaN => None
  | Inf a, Inf b =>
      Some (if Bool.eqb a b then Eq else if a then Lt else Gt)
  | Inf a, Fin _ _ => Some (if a then Lt else Gt)
  | Fin _ _, Inf b => Some (if b then Gt else Lt)
  | Fin m1 e1, Fin m2 e2 =>
      let e := Z.min e1 e2 in
      Some (Z.compare (m1 * 10 ^ (e1 - e)) (m2 * 10 ^ (e2 - e)))
  end.

(** Python's [==] on floats: NaN differs from everything. *)
Definition feqb (x y : pyfloat) : bool :=
  match fcompare x y with Some Eq => true | _ => false end.

End PyFloat.
Import PyFloat.

(** ** Python's [float(str)] and [str(number)] *)

Module PyParse.

Definition is_digit (c : char) : bool := ((48 <=? c) && (c <=? 57))%N.
Definition digit_val (c : char) : Z := Z.of_N (c - 48).
Definition underscore : char := 95%N.
Definition dot : char := 46%N.
Definition minus : char := 45%N.
Definition plus : char := 43%N.

(** The rest of a digit group, after its first digit: digits, each
    possibly preceded by one underscore when [us] is set (PEP 515). *)
Fixpoint digit_run (us : bool) (s : pystr) : list Z * pystr :=
  match s with
  | c :: s' =>
      if is_digit c then
        let '(ds, r) := digit_run us s' in (digit_val c :: ds, r)
      else if us && (c =? underscore)%N then
        match s' with
        | d :: _ => if is_digit d then digit_run us s' else ([], s)
        | [] => ([], s)
        end
      else ([], s)
  | [] => ([], [])
  end.

Definition digitpart (us : bool) (s : pystr) : option (list Z * pystr) :=
  match s with
  | d :: s' =>
      if is_digit d then
        let '(ds, r) := digit_run us s' in Some (digit_val d :: ds, r)
      else None
  | [] => None
  end.

Definition horner (ds : list Z) : Z :=
  fold_left (fun a d => 10 * a + d) ds 0.

Definition sign (s : pystr) : bool * pystr :=
  match s with
  | c :: s' =>
      if (c =? minus)%N then (true, s')
      else if (c =? plus)%N then (false, s')
      else (false, s)
  | [] => (false, [])
  end.

Definition signed (neg : bool) (z : Z) : Z := if neg then - z else z.

(** What follows the mantissa: nothing, or [e] and a signed digit group. *)
Definition exponent (us : bool) (s : pystr) : option Z :=
  match s with
  | [] => Some 0
  | c :: s' =>
      if ((c =? 101) || (c =? 69))%N then
        let '(neg, s'') := sign s' in
        match digitpart us s'' with
        | Some (ds, []) => Some (signed neg (horner ds))
        | _ => None
        end
      else None
  end.

(** Integer digits, fraction digits and the text after them. *)
Definition mantissa (us : bool) (s : pystr)
  : option (list Z * list Z * pystr) :=
  match digitpart us s with
  | Some (ip, r) =>
      match r with
      | c :: r' =>
          if (c =? dot)%N then
            match digitpart us r' with
            | Some (fp, r'') => Some (ip, fp, r'')
            | None => Some (ip, [], r')
            end
          else Some (ip, [], r)
      | [] => Some (ip, [], [])
      end
  | None =>
      match s with
      | c :: r' =>
          if (c =? dot)%N then
            match digitpart us r' with
            | Some (fp, r'') => Some ([], fp, r'')
            | None => None
            end
          else None
      | [] => None
      end
  end.

Definition lower (c : char) : char :=
  if ((65 <=? c) && (c <=? 90))%N then (c + 32)%N else c.

(** A decimal literal without its sign. *)
Definition number (us neg : bool) (b : pystr) : option pyfloat :=
  match mantissa us b with
  | Some (ip, fp, r) =>
      match exponent us r with
      | Some e =>
          Some (Fin (signed neg (horner (ip ++ fp)))
                    (e - Z.of_nat (length fp)))
      | None => None
      end
  | None => None
  end.

(** [float(s)] for a string: [None] stands for [ValueError].  The
    decimal digits of other scripts, which Python also reads, are not
    modelled. *)
Definition py_float (s : pystr) : option pyfloat :=
  let '(neg, b) := sign (strip s) in
  let w := map lower b in
  if PyStr.eqb w (lit "inf") || PyStr.eqb w (lit "infinity") then Some (Inf neg)
  else if PyStr.eqb w (lit "nan") then Some NaN
  else number true neg b.

(** Decimal digits of a non-negative integer, most significant first. *)
Fixpoint digits_aux (fuel : nat) (n : Z) (acc : pystr) : pystr :=
  match fuel with
  | O => acc
  | S f =>
      let acc' := Z.to_N (48 + n mod 10) :: acc in
      if n / 10 =? 0 then acc' else digits_aux f (n / 10) acc'
  end.

Definition digits (n : Z) : pystr :=
  digits_aux (S (Z.to_nat (Z.log2 n))) n [].

(** [str(z)] for an integer. *)
Definition int_str (z : Z) : pystr :=
  if z <? 0 then minus :: digits (- z) else digits z.

(** [str(x)] for a float.  A finite value is spelled
    [<mantissa>e<exponent>], one of the literals that [float] reads
    back as the same number. *)
Definition float_str (x : pyfloat) : pystr :=
  match x with
  | NaN => lit "nan"
  | Inf false => lit "inf"
  | Inf true => lit "-inf"
  | Fin m e => int_str m ++ 101%N :: int_str e
  end.

End PyParse.
Import PyParse.

(** ** Cell values and the normalizers *)

Inductive pyval :=
| VNone
| VBool (b : bool)
| VFloat (x : pyfloat)
| VInt (z : Z)
| VStr (s : pystr).

(** [pd.isna(val)] on a scalar. *)
Definition pd_isna (val : pyval) : bool :=
  match val with
  | VNone => true
  | VFloat x => isnan x
  | _ => false
  end.

(** [str(val)] *)
Definition py_str (val : pyval) : pystr :=
  match val with
  | VNone => lit "None"
  | VBool b => lit (if b then "True" else "False")
  | VFloat x => float_str x
  | VInt z => int_str z
  | VStr s => s
  end.

(** [try: ... except: return 0.0] around a conversion. *)
Definition or_zero (r : option pyfloat) : pyfloat := default zero r.

(** [IndustryFlowAnalyzer._normalize_amount] *)
Definition _normalize_amount (val : pyval) : pyfloat :=
  if pd_isna val then zero
  else
    let s := strip (py_str val) in
    or_zero
      (if contains yi s then py_float (remove yi s)
       else if contains wan s then div10000 <$> py_float (remove wan s)
       else py_float s).

(** [IndustryFlowAnalyzer._clean_pct_string] *)
Definition _clean_pct_string (val : pyval) : pyfloat :=
  if pd_isna val then zero
  else
    match val with
    | VFloat x => x
    | VInt z => Fin z 0
    | VBool b => Fin (if b then 1 else 0) 0
    | _ => or_zero (py_float (strip (remove percent (py_str val))))
    end.

(** [convert_to_wan], the closure of [_normalize_fund_data]. *)
Definition convert_to_wan (val : pyval) : pyfloat :=
  let blank :=
    match val with
    | VNone => true
    | _ => PyStr.eqb (strip (py_str val)) [] || PyStr.eqb (strip (py_str val)) (lit "-")
    end in
  if blank then zero
  else
    let val_str := strip (py_str val) in
    or_zero
      (if contains yi val_str then mul10000 <$> py_float (remove yi val_str)
       else if contains wan val_str then py_float (remove wan val_str)
       else py_float val_str).

(** ** Exceptions *)

Inductive exn :=
| KeyError (k : string)
| TypeError
| ValueError
| BaseException.

Definition res (A : Type) : Type := exn + A.

Definition bind {A B} (c : res A) (k : A -> res B) : res B :=
  match c with
  | inl e => inl e
  | inr x => k x
  end.

Notation "'do' x <- c ; k" := (bind c (fun x => k))
  (at level 10, x name, c at level 100, k at level 200).

(** ** pandas frames *)

Module Frame.

(** A percentile score: an exact rational, or NaN. *)
Inductive score :=
| SNaN
| SNum (q : Q).

(** A column and its dtype: [object], [float64] holding market
    quantities, [float64] holding scores. *)
Inductive column :=
| ObjCol (xs : list pyval)
| FloatCol (xs : list pyfloat)
| PctCol (xs : list score).

(** Columns in order; all of one length. *)
Definition DataFrame := list (string * column).

Definition col_len (c : column) : nat :=
  match c with
  | ObjCol xs => length xs
  | FloatCol xs => length xs
  | PctCol xs => length xs
  end.

Definition nrows (df : DataFrame) : nat :=
  match df with
  | [] => O
  | (_, c) :: _ => col_len c
  end.

(** [pd.DataFrame()] *)
Definition empty_frame : DataFrame := [].

(** [df.empty] *)
Definition empty (df : DataFrame) : bool :=
  match df with
  | [] => true
  | _ => Nat.eqb (nrows df) 0
  end.

Definition columns (df : DataFrame) : list string := map fst df.

Fixpoint find_col (k : string) (df : DataFrame) : option column :=
  match df with
  | [] => None
  | (k', c) :: df' => if String.eqb k k' then Some c else find_col k df'
  end.

(** [col in df.columns] *)
Definition has_col (k : string) (df : DataFrame) : bool :=
  match find_col k df with Some _ => true | None => false end.

(** [df[k]] *)
Definition getitem (df : DataFrame) (k : string) : res column :=
  match find_col k df with
  | Some c => inr c
  | None => inl (KeyError k)
  end.

(** [df[[k1, ..., kn]]] *)
Fixpoint select (df : DataFrame) (ks : list string) : res DataFrame :=
  match ks with
  | [] => inr []
  | k :: ks' =>
      do c <- getitem df k;
      do rest <- select df ks';
      inr ((k, c) :: rest)
  end.

(** [df[k] = c]: replaced in place, or appended as the last column. *)
Fixpoint setitem (df : DataFrame) (k : string) (c : column) : DataFrame :=
  match df with
  | [] => [(k, c)]
  | (k', c') :: df' =>
      if String.eqb k k' then (k, c) :: df' else (k', c') :: setitem df' k c
  end.

Fixpoint rename_key (m : list (string * string)) (k : string) : string :=
  match m with
  | [] => k
  | (a, b) :: m' => if String.eqb a k then b else rename_key m' k
  end.

(** [df.rename(columns=m)] *)
Definition rename (m : list (string * string)) (df : DataFrame) : DataFrame :=
  map (fun kc => (rename_key m (fst kc), snd kc)) df.

(** [df.columns = ks] *)
Definition set_columns (ks : list string) (df : DataFrame) : DataFrame :=
  zip_with (fun k kc => (k, snd kc)) ks df.

(** Rows gathered by position; [None] gives the missing marker. *)
Definition take_opt {A} (na : A) (xs : list A) (idx : list (option nat)) : list A :=
  map (fun o => match o with
                | Some j => nth j xs na
                | None => na
                end) idx.

Definition take_col (idx : list (option nat)) (c : column) : column :=
  match c with
  | ObjCol xs => ObjCol (take_opt (VFloat NaN) xs idx)
  | FloatCol xs => FloatCol (take_opt NaN xs idx)
  | PctCol xs => PctCol (take_opt SNaN xs idx)
  end.

Definition take (idx : list (option nat)) (df : DataFrame) : DataFrame :=
  map (fun kc => (fst kc, take_col idx (snd kc))) df.

(** The cells of a column as Python values, for join keys and
    [apply].  The code never does either on a score column. *)
Definition col_vals (c : column) : res (list pyval) :=
  match c with
  | ObjCol xs => inr xs
  | FloatCol xs => inr (map VFloat xs)
  | PctCol _ => inl TypeError
  end.

End Frame.
Import Frame.

#[global] Instance pyfloat_eq_dec : EqDecision pyfloat.
Proof. solve_decision. Defined.

#[global] Instance pyval_eq_dec : EqDecision pyval.
Proof. solve_decision. Defined.

(** ** pandas and numpy operations used by the pipeline *)

Module Pandas.

(** Positions of [k] in [keys], counted from [j]. *)
Fixpoint positions (k : pyval) (keys : list pyval) (j : nat) : list nat :=
  match keys with
  | [] => []
  | k' :: ks =>
      if bool_decide (k' = k) then j :: positions k ks (S j)
      else positions k ks (S j)
  end.

(** The left-join indexer: every left row, in order, paired with each
    matching right row, or with no row when nothing matches. *)
Fixpoint join_indexer (lkeys rkeys : list pyval) (i : nat)
  : list (nat * option nat) :=
  match lkeys with
  | [] => []
  | k :: ks =>
      match positions k rkeys 0 with
      | [] => [(i, None)]
      | js => map (fun j => (i, Some j)) js
      end ++ join_indexer ks rkeys (S i)
  end.

(** [pd.merge(left, right, on=on, how='left')].  In every call the code
    makes, the two sides share the key column only, so pandas's renaming
    of clashing columns does not arise. *)
Definition merge_left (left right : DataFrame) (on : string) : res DataFrame :=
  do lc <- getitem left on;
  do rc <- getitem right on;
  do lk <- col_vals lc;
  do rk <- col_vals rc;
  let ix := join_indexer lk rk 0 in
  inr (take (map (fun p => Some (fst p)) ix) left ++
       take (map snd ix)
            (List.filter (fun kc => negb (String.eqb (fst kc) on)) right)).

Definition fill0 (x : pyfloat) : pyfloat := if isnan x then zero else x.

(** [col.fillna(0.0)] *)
Definition fillna0 (c : column) : column :=
  match c with
  | FloatCol xs => FloatCol (map fill0 xs)
  | ObjCol xs => ObjCol (map (fun v => if pd_isna v then VFloat zero else v) xs)
  | PctCol xs => PctCol (map (fun s => match s with
                                       | SNaN => SNum 0
                                       | _ => s
                                       end) xs)
  end.

Definition num_of (v : pyval) : res pyfloat :=
  match v with
  | VFloat x => inr x
  | VInt z => inr (Fin z 0)
  | VBool b => inr (Fin (if b then 1 else 0) 0)
  | _ => inl TypeError
  end.

Fixpoint mapM {A B} (f : A -> res B) (l : list A) : res (list B) :=
  match l with
  | [] => inr []
  | x :: l' => do y <- f x; do ys <- mapM f l'; inr (y :: ys)
  end.

(** The numbers of a column that takes part in arithmetic or ranking.
    An object column of numbers behaves as a numeric one; with other
    objects in it arithmetic raises.  (pandas can rank a column made of
    strings only; that case is treated as an error here too.) *)
Definition as_floats (c : column) : res (list pyfloat) :=
  match c with
  | FloatCol xs => inr xs
  | ObjCol xs => mapM num_of xs
  | PctCol _ => inl TypeError
  end.

Definition as_scores (c : column) : res (list score) :=
  match c with
  | PctCol xs => inr xs
  | _ => inl TypeError
  end.

(** [x] sorts strictly before [y] in the direction asked for. *)
Definition key_lt (ascending : bool) (x y : pyfloat) : bool :=
  match fcompare x y with
  | Some Lt => ascending
  | Some Gt => negb ascending
  | _ => false
  end.

Definition count {A} (p : A -> bool) (l : list A) : nat :=
  length (List.filter p l).

(** [s.rank(pct=True, ascending=...)]: ties share the average of their
    ranks, NaN keeps NaN, and the ranks are divided by the number of
    values that are not NaN. *)
Definition rank_pct (ascending : bool) (keys : list pyfloat) : list score :=
  let valid := List.filter (fun x => negb (isnan x)) keys in
  let n := length valid in
  map (fun x =>
         if isnan x then SNaN
         else
           let below := count (fun y => key_lt ascending y x) valid in
           let tied := count (fun y => feqb y x) valid in
           SNum ((inject_Z (Z.of_nat below)
                  + (inject_Z (Z.of_nat tied) + 1) / 2)
                 / inject_Z (Z.of_nat n))%Q) keys.

Definition smap (f : Q -> Q) (s : score) : score :=
  match s with
  | SNaN => SNaN
  | SNum q => SNum (f q)
  end.

Definition sadd (a b : score) : score :=
  match a, b with
  | SNum x, SNum y => SNum (x + y)%Q
  | _, _ => SNaN
  end.

(** Round half to even, as [numpy.rint]. *)
Definition rint (q : Q) : Z :=
  let f := Qfloor q in
  match Qcompare (q - inject_Z f) (1 # 2) with
  | Lt => f
  | Gt => f + 1
  | Eq => if Z.even f then f else f + 1
  end.

(** [s.round(2)] *)
Definition round2 (q : Q) : Q := (inject_Z (rint (q * 100)) / 100)%Q.

(** [s > c], [s < c] and [s.between(a, b)]: false on NaN. *)
Definition gt (c : Q) (s : score) : bool :=
  match s with SNum q => negb (Qle_bool q c) | SNaN => false end.

Definition lt (c : Q) (s : score) : bool :=
  match s with SNum q => negb (Qle_bool c q) | SNaN => false end.

Definition between (a b : Q) (s : score) : bool :=
  match s with SNum q => Qle_bool a q && Qle_bool q b | SNaN => false end.

(** One row of [np.select]: the choice of the first condition that holds. *)
Fixpoint select_row {A} (conds : list bool) (choices : list A) (default : A) : A :=
  match conds, choices with
  | c :: cs, x :: xs => if c then x else select_row cs xs default
  | _, _ => default
  end.

(** [np.select(conds, choices, default)] over [n] rows. *)
Definition np_select {A} (n : nat) (conds : list (list bool))
    (choices : list A) (default : A) : list A :=
  map (fun i => select_row (map (fun c => nth i c false) conds) choices default)
      (seq 0 n).

(** [a] may come before [b] in descending order with NaN last. *)
Definition before (a b : score) : bool :=
  match a, b with
  | SNum x, SNum y => Qle_bool y x
  | _, SNaN => true
  | SNaN, SNum _ => false
  end.

Fixpoint insert_desc (x : score * nat) (l : list (score * nat)) : list (score * nat) :=
  match l with
  | [] => [x]
  | y :: l' => if before (fst x) (fst y) then x :: l else y :: insert_desc x l'
  end.

(** The row order of [sort_values(ascending=False)].  Rows with equal
    keys are kept in their original order here; pandas's default sort
    may order them differently, and nothing below depends on it. *)
Definition sort_indexer (keys : list score) : list nat :=
  map snd (foldr insert_desc [] (zip keys (seq 0 (length keys)))).

End Pandas.
Import Pandas.

(** ** The cache file: [to_csv] and [read_csv]

    A tab-separated file is modelled as its header and its records of
    text fields; quoting and the byte encoding, which lose nothing, are
    left out. *)

Module Csv.

Record table := { header : list string; records : list (list pystr) }.

(** The text of a score: fifteen decimals. *)
Definition score_text (s : score) : pystr :=
  match s with
  | SNaN => []
  | SNum q => int_str (rint (q * inject_Z (10 ^ 15))) ++ lit "e-15"
  end.

(** Missing values are written as the empty field. *)
Definition cell_text (v : pyval) : pystr :=
  if pd_isna v then [] else py_str v.

Definition col_texts (c : column) : list pystr :=
  match c with
  | ObjCol xs => map cell_text xs
  | FloatCol xs => map (fun x => cell_text (VFloat x)) xs
  | PctCol xs => map score_text xs
  end.

(** [df.to_csv(path, sep='\t', index=False)] *)
Definition to_csv (df : DataFrame) : table :=
  {| header := columns df;
     records := map (fun i => map (fun kc => nth i (col_texts (snd kc)) []) df)
                    (seq 0 (nrows df)) |}.

(** The spellings [read_csv] takes for a missing value. *)
Definition na_values : list pystr :=
  map lit [""; "#N/A"; "#N/A N/A"; "#NA"; "-1.#IND"; "-1.#QNAN"; "-NaN";
           "-nan"; "1.#IND"; "1.#QNAN"; "<NA>"; "N/A"; "NA"; "NULL"; "NaN";
           "None"; "n/a"; "nan"; "null"]%string.

Definition is_na (f : pystr) : bool := bool_decide (f ∈ na_values).

(** A field the reader takes for a number: a decimal literal without
    underscores, or an infinity. *)
Definition csv_float (f : pystr) : option pyfloat :=
  let '(neg, b) := sign (strip f) in
  let w := map lower b in
  if PyStr.eqb w (lit "inf") || PyStr.eqb w (lit "infinity") then Some (Inf neg)
  else number false neg b.

Definition csv_bool (f : pystr) : option bool :=
  if bool_decide (f ∈ map lit ["True"; "TRUE"; "true"]%string) then Some true
  else if bool_decide (f ∈ map lit ["False"; "FALSE"; "false"]%string) then Some false
  else None.

Fixpoint all_some {A B} (f : A -> option B) (l : list A) : bool :=
  match l with
  | [] => true
  | x :: l' => match f x with Some _ => all_some f l' | None => false end
  end.

(** The dtype the reader infers for a column of fields: numeric when
    every present field is a number, boolean when every field is a
    truth value, text otherwise. *)
Definition infer_column (fields : list pystr) : column :=
  let present := List.filter (fun f => negb (is_na f)) fields in
  if all_some csv_float present then
    FloatCol (map (fun f => if is_na f then NaN else default NaN (csv_float f)) fields)
  else if all_some csv_bool present then
    ObjCol (map (fun f => if is_na f then VFloat NaN
                          else from_option VBool (VFloat NaN) (csv_bool f)) fields)
  else
    ObjCol (map (fun f => if is_na f then VFloat NaN else VStr f) fields).

(** [pd.read_csv(path, sep='\t')]: no header, or a record longer than
    the header, raises; a shorter record is padded with missing values. *)
Definition read_csv (t : table) : res DataFrame :=
  match header t with
  | [] => inl ValueError
  | _ =>
      if forallb (fun r => Nat.leb (length r) (length (header t))) (records t) then
        inr (imap (fun j k => (k, infer_column (map (fun r => nth j r []) (records t))))
                  (header t))
      else inl ValueError
  end.

(** What is at the cache path. *)
Inductive file :=
| Absent
| Corrupt
| Stored (t : table).

(** The disk: the cache file, and whether writing it succeeds. *)
Record disk := { cache : file; writable : bool }.

End Csv.
Import Csv.

(** ** The data provider *)

Inductive response :=
| Raises
| Returns (df : option DataFrame).

(** The three akshare calls the analyzer makes. *)
Record akshare := {
  stock_fund_flow_industry : string -> response;
  stock_board_industry_name_em : response;
  stock_fund_flow_big_deal : response
}.

(** ** [IndustryFlowAnalyzer] *)

Module IndustryFlowAnalyzer.

#[local] Open Scope string_scope.

(** The signal labels and the big-deal marks. *)
Definition label_offensive : pystr := [0x8d44; 0x91d1; 0x4e3b; 0x653b]%N.
Definition label_receding : pystr := [0x9000; 0x6f6e; 0x9884; 0x8b66]%N.
Definition label_submerged : pystr := [0x9ec4; 0x91d1; 0x5751; 0x6f5c; 0x5165]%N.
Definition label_shaking : pystr := [0x4f4e; 0x4f4d; 0x5f3a; 0x5f02; 0x52a8]%N.
Definition label_watch : pystr := [0x89c2; 0x671b; 0x533a; 0x95f4]%N.
Definition confirmed : pystr := [0x786e; 0x8ba4]%N.
Definition unconfirmed : pystr := [0x65e0]%N.
Definition buy : pystr := [0x4e70; 0x5165]%N.

(** [df[col] = df[col].apply(f)] for each listed column that exists. *)
Fixpoint apply_cols (f : column -> res column) (cols : list string)
    (df : DataFrame) : res DataFrame :=
  match cols with
  | [] => inr df
  | col :: cols' =>
      match find_col col df with
      | Some c => do c' <- f c; apply_cols f cols' (setitem df col c')
      | None => apply_cols f cols' df
      end
  end.

Definition clean_pct (c : column) : res column :=
  do vs <- col_vals c; inr (FloatCol (map _clean_pct_string vs)).

(** Lines 45-47: the amount strings of an [object] column are
    normalized, then the column is made numeric and its gaps filled. *)
Definition clean_money (c : column) : res column :=
  do xs <- as_floats (match c with
                      | ObjCol vs => FloatCol (map _normalize_amount vs)
                      | _ => c
                      end);
  inr (fillna0 (FloatCol xs)).

(** [_fetch_and_clean]: any failure gives the empty frame. *)
Definition _fetch_and_clean (ak : akshare) (period_name : string) : DataFrame :=
  match stock_fund_flow_industry ak period_name with
  | Returns (Some df) =>
      if empty df then empty_frame
      else
        let df := rename [("行业", "行业名称")] df in
        match
          (do df <- apply_cols clean_pct ["行业-涨跌幅"; "阶段涨跌幅"; "领涨股-涨跌幅"] df;
           apply_cols clean_money ["流入资金"; "流出资金"; "净额"] df)
        with
        | inr df' => df'
        | inl _ => empty_frame
        end
  | _ => empty_frame
  end.

(** [_fetch_market_turnover] *)
Definition _fetch_market_turnover (ak : akshare) : DataFrame :=
  match stock_board_industry_name_em ak with
  | Returns (Some df) =>
      match select df ["板块名称"; "换手率"] with
      | inr df' => set_columns ["行业名称"; "换手率"] df'
      | inl _ => empty_frame
      end
  | _ => empty_frame
  end.

Fixpoint prefix_b (p s : pystr) : bool :=
  match p, s with
  | [], _ => true
  | a :: p', b :: s' => (a =? b)%N && prefix_b p' s'
  | _ :: _, [] => false
  end.

(** [p in s] for strings. *)
Fixpoint infix_b (p s : pystr) : bool :=
  prefix_b p s || match s with
                  | [] => false
                  | _ :: s' => infix_b p s'
                  end.

(** [_fetch_big_deal_logic]: the names of the stocks with a buy order.
    The result is a set; only membership in it is used. *)
Definition _fetch_big_deal_logic (ak : akshare) : list pyval :=
  match stock_fund_flow_big_deal ak with
  | Returns (Some df) =>
      if empty df then []
      else
        match find_col "大单性质" df, find_col "股票简称" df with
        | Some (ObjCol kinds), Some names =>
            match col_vals names with
            | inr ns =>
                map snd
                  (List.filter
                     (fun kn => match fst kn with
                                | VStr s => infix_b buy s
                                | _ => false
                                end)
                     (zip kinds ns))
            | inl _ => []
            end
        | _, _ => []
        end
  | _ => []
  end.

(** [period_map], in insertion order. *)
Definition period_map : list (string * string) :=
  [("即时", "now"); ("3日排行", "3d"); ("5日排行", "5d");
   ("10日排行", "10d"); ("20日排行", "20d")].

(** Lines 86-90. *)
Definition fetch_periods (ak : akshare) : gmap string DataFrame :=
  foldl (fun dfs pk =>
           let df := _fetch_and_clean ak (fst pk) in
           if negb (empty df) then <[snd pk := df]> dfs else dfs)
        ∅ period_map.

(** Lines 98-102: the trailing windows that were fetched are joined on. *)
Fixpoint merge_periods (dfs : gmap string DataFrame) (ps : list string)
    (main : DataFrame) : res DataFrame :=
  match ps with
  | [] => inr main
  | p :: ps' =>
      match dfs !! p with
      | Some d =>
          do tmp <- select d ["行业名称"; "净额"; "阶段涨跌幅"];
          let tmp := set_columns ["行业名称"; "净额_" ++ p; "涨幅_" ++ p] tmp in
          do main' <- merge_left main tmp "行业名称";
          merge_periods dfs ps' main'
      | None => merge_periods dfs ps' main
      end
  end.

(** Line 116: [for col in money_rank_cols: main[col] = main[col].fillna(0.0)] *)
Fixpoint fill_cols (cols : list string) (main : DataFrame) : res DataFrame :=
  match cols with
  | [] => inr main
  | col :: cols' =>
      do c <- getitem main col;
      fill_cols cols' (setitem main col (fillna0 c))
  end.

Definition floats_of (main : DataFrame) (col : string) : res (list pyfloat) :=
  do c <- getitem main col; as_floats c.

Definition scores_of (main : DataFrame) (col : string) : res (list score) :=
  do c <- getitem main col; as_scores c.

Definition times100 (s : score) : score := smap (fun q => q * 100)%Q s.
Definition half (s : score) : score := smap (fun q => q * (1 # 2))%Q s.

(** [a * 0.4 + b * 0.3 + c * 0.2 + d * 0.1] *)
Definition weighted (a b c d : pyfloat) : pyfloat :=
  fadd (fadd (fadd (fmul a (Fin 4 (-1))) (fmul b (Fin 3 (-1))))
             (fmul c (Fin 2 (-1))))
       (fmul d (Fin 1 (-1))).

Fixpoint zip4 {A B} (f : A -> A -> A -> A -> B) (a b c d : list A) : list B :=
  match a, b, c, d with
  | x :: a', y :: b', z :: c', w :: d' => f x y z w :: zip4 f a' b' c' d'
  | _, _, _, _ => []
  end.

(** Lines 118-121: the four scores. *)
Definition add_scores (main : DataFrame) : res DataFrame :=
  do n3 <- floats_of main "净额_3d";
  do n5 <- floats_of main "净额_5d";
  do n10 <- floats_of main "净额_10d";
  do n20 <- floats_of main "净额_20d";
  let main := setitem main "资金分"
    (PctCol (map times100 (rank_pct true (zip4 weighted n3 n5 n10 n20)))) in
  do pct <- floats_of main "涨幅_now";
  let main := setitem main "价格分" (PctCol (map times100 (rank_pct true pct))) in
  do turn <- floats_of main "换手率";
  let main := setitem main "换手分" (PctCol (map times100 (rank_pct false turn))) in
  do money <- scores_of main "资金分";
  do price <- scores_of main "价格分";
  inr (setitem main "趋势得分"
         (PctCol (map (smap round2) (zip_with sadd (map half money) (map half price))))).

(** Lines 125-135: the signal of every row. *)
Definition add_signal (main : DataFrame) : res DataFrame :=
  do money <- scores_of main "资金分";
  do price <- scores_of main "价格分";
  do turn <- scores_of main "换手分";
  do trend <- scores_of main "趋势得分";
  do deal <- getitem main "大单印证";
  do deals <- col_vals deal;
  let is_submerged :=
    zip_with andb (zip_with andb (map (gt 75) money) (map (lt 50) price))
                  (map (gt 60) turn) in
  let is_shaking :=
    zip_with andb (map (between 50 80) trend)
                  (map (fun v => bool_decide (v = VStr confirmed)) deals) in
  let conds := [map (gt 85) trend; map (lt 25) trend; is_submerged; is_shaking] in
  inr (setitem main "行业信号"
         (ObjCol (map VStr
            (np_select (nrows main) conds
               [label_offensive; label_receding; label_submerged; label_shaking]
               label_watch)))).

(** Line 95: the columns kept from the instant window. *)
Definition base_cols : list string :=
  ["行业名称"; "行业指数"; "行业-涨跌幅"; "净额"; "流入资金"; "领涨股"; "领涨股-涨跌幅"].

Definition money_rank_cols : list string :=
  ["净额_3d"; "净额_5d"; "净额_10d"; "净额_20d"].

(** Lines 105-109: the turnover rate is joined on, or set to 0.0
    throughout when the turnover fetch gave nothing. *)
Definition add_turnover (ak : akshare) (main : DataFrame) : res DataFrame :=
  let turnover_df := _fetch_market_turnover ak in
  if negb (empty turnover_df) then merge_left main turnover_df "行业名称"
  else inr (setitem main "换手率" (FloatCol (repeat zero (nrows main)))).

(** Lines 111-112: the big-deal mark of every row. *)
Definition add_big_deal (ak : akshare) (main : DataFrame) : res DataFrame :=
  let big_deal_stocks := _fetch_big_deal_logic ak in
  do lead <- getitem main "领涨股";
  do leads <- col_vals lead;
  inr (setitem main "大单印证"
         (ObjCol (map (fun x => VStr (if bool_decide (x ∈ big_deal_stocks)
                                      then confirmed else unconfirmed)) leads))).

(** Line 137: [main.sort_values('趋势得分', ascending=False)] *)
Definition sort_by_trend (main : DataFrame) : res DataFrame :=
  do trend <- scores_of main "趋势得分";
  inr (take (map Some (sort_indexer trend)) main).

(** Lines 95-137: the table built from the fetched windows. *)
Definition analyse (ak : akshare) (dfs : gmap string DataFrame)
    (now : DataFrame) : res DataFrame :=
  do main <- select now base_cols;
  let main := rename [("净额", "净额_now"); ("行业-涨跌幅", "涨幅_now")] main in
  do main <- merge_periods dfs ["3d"; "5d"; "10d"; "20d"] main;
  do main <- add_turnover ak main;
  do main <- add_big_deal ak main;
  do main <- fill_cols money_rank_cols main;
  do main <- add_scores main;
  do main <- add_signal main;
  sort_by_trend main.

(** Lines 77-82: the cached table, when the file exists and loads. *)
Definition load_cache (d : disk) : option DataFrame :=
  match cache d with
  | Stored t => match read_csv t with
                | inr df => Some df
                | inl _ => None
                end
  | _ => None
  end.

(** Lines 139-144: a failed write is logged and changes nothing. *)
Definition save_cache (d : disk) (result : DataFrame) : disk :=
  if writable d then {| cache := Stored (to_csv result); writable := writable d |}
  else d.

(** [run_analysis]: the value returned or the exception raised, and the
    disk afterwards. *)
Definition run_analysis (ak : akshare) (d : disk) : res DataFrame * disk :=
  match load_cache d with
  | Some df => (inr df, d)
  | None =>
      let dfs := fetch_periods ak in
      match dfs !! "now" with
      | None => (inr empty_frame, d)
      | Some now =>
          match analyse ak dfs now with
          | inr result => (inr result, save_cache d result)
          | inl e => (inl e, d)
          end
      end
  end.

End IndustryFlowAnalyzer.

(** ** [ParallelUtils] *)

Module ParallelUtils.

#[local] Open Scope string_scope.

Fixpoint str_prefix (p s : string) : bool :=
  match p, s with
  | EmptyString, _ => true
  | String a p', String b s' => Ascii.eqb a b && str_prefix p' s'
  | String _ _, EmptyString => false
  end.

(** [k in col] for column names. *)
Fixpoint str_infix (p s : string) : bool :=
  str_prefix p s || match s with
                    | EmptyString => false
                    | String _ s' => str_infix p s'
                    end.

Definition zijin_keywords : list string :=
  ["资金"; "流向"; "净流入"; "净额"; "成交额"].

(** [_normalize_fund_data]: every [object] column whose name holds a
    keyword is converted cell by cell. *)
Definition _normalize_fund_data (df : option DataFrame) : option DataFrame :=
  match df with
  | None => None
  | Some d =>
      if empty d then Some d
      else
        Some (map (fun kc =>
                     if existsb (fun k => str_infix k (fst kc)) zijin_keywords then
                       match snd kc with
                       | ObjCol vs => (fst kc, FloatCol (map convert_to_wan vs))
                       | c => (fst kc, c)
                       end
                     else kc) d)
  end.

Section Pool.

Variables A R : Type.

(** The [items] argument: a list can be iterated again and again, a
    generator only once. *)
Inductive iterable :=
| PyList (l : list A)
| Generator (rest : list A).

(** Iterating to the end: the items produced, and the iterable after. *)
Definition iterate (it : iterable) : list A * iterable :=
  match it with
  | PyList l => (l, PyList l)
  | Generator rest => (rest, Generator [])
  end.

(** What one call of the worker does.  [RaisesException] is an
    instance of [Exception]; [RaisesOther] is any other
    [BaseException], which [except Exception] lets through. *)
Inductive outcome :=
| Value (r : R)
| ReturnsNone
| RaisesException
| RaisesOther.

(** Lines 61-70: the futures are visited in the order [order] in
    which they complete. *)
Fixpoint collect (futures : list outcome) (order : list nat)
    (results : list R) : res (list R) :=
  match order with
  | [] => inr results
  | i :: order' =>
      match futures !! i with
      | Some (Value r) => collect futures order' (results ++ [r])
      | Some RaisesOther => inl BaseException
      | _ => collect futures order' results
      end
  end.

(** What one finished future adds to the result list. *)
Definition yield (o : option outcome) : list R :=
  match o with
  | Some (Value r) => [r]
  | _ => []
  end.

(** The values of the futures, in submission order. *)
Definition values (futures : list outcome) : list R :=
  flat_map (fun o => yield (Some o)) futures.

Definition is_exception (o : outcome) : bool :=
  match o with RaisesException => true | _ => false end.

(** The worker either returns a value or raises an [Exception]. *)
Definition settles (o : outcome) : Prop :=
  o = RaisesException \/ exists r, o = Value r.

Record run := {
  returned : res (list R);   (* the list returned, or the exception *)
  submitted : list A;        (* the items handed to the worker *)
  items_after : iterable     (* the iterable once the call is over *)
}.

(** [run_with_thread_pool].  [order] is the completion order the pool
    happens to produce: a permutation of the positions of the
    submitted items. *)
Definition run_with_thread_pool (items : iterable)
    (worker_func : A -> outcome) (max_workers : Z) (order : list nat) : run :=
  let '(counted, items1) := iterate items in
  let total := length counted in
  if (max_workers <=? 0)%Z then
    {| returned := inl ValueError; submitted := []; items_after := items1 |}
  else
    let '(todo, items2) := iterate items1 in
    {| returned := collect (map worker_func todo) order [];
       submitted := todo;
       items_after := items2 |}.

End Pool.

Arguments PyList {A} l.
Arguments Generator {A} rest.
Arguments Value {R} r.
Arguments ReturnsNone {R}.
Arguments RaisesException {R}.
Arguments RaisesOther {R}.
Arguments collect {R} futures order results.
Arguments yield {R} o.
Arguments values {R} futures.
Arguments is_exception {R} o.
Arguments settles {R} o.
Arguments returned {A R} r.
Arguments submitted {A R} r.
Arguments items_after {A R} r.
Arguments run_with_thread_pool {A R} items worker_func max_workers order.

End ParallelUtils.

(** ** Sample data *)

Module Samples.

#[local] Open Scope string_scope.

Definition name_A : pyval := VStr (lit "A").
Definition name_B : pyval := VStr (lit "B").
Definition name_C : pyval := VStr (lit "C").

Definition nums (zs : list Z) : column := FloatCol (map (fun z => Fin z 0) zs).

(** The instant window: A (net 10, up 5) and B (net -5, down 2). *)
Definition now_df : DataFrame :=
  [("行业", ObjCol [name_A; name_B]); ("行业指数", nums [1000; 2000]);
   ("行业-涨跌幅", nums [5; -2]); ("流入资金", nums [20; 3]);
   ("流出资金", nums [10; 8]); ("净额", nums [10; -5]);
   ("领涨股", ObjCol [VStr (lit "s1"); VStr (lit "s2")]);
   ("领涨股-涨跌幅", nums [9; 1])].

(** A trailing window. *)
Definition trail_df (names : list pyval) (net pct : list Z) : DataFrame :=
  [("行业", ObjCol names); ("净额", nums net); ("阶段涨跌幅", nums pct)].

(** The turnover board. *)
Definition turn_df (names : list pyval) (rate : list Z) : DataFrame :=
  [("板块名称", ObjCol names); ("换手率", nums rate)].

Definition is_now (p : string) : bool := String.eqb p "即时".

(** Every fetch succeeds; the trailing windows and the turnover board
    also list an industry C that the instant window does not have. *)
Definition ak_full : akshare :=
  {| stock_fund_flow_industry := fun p =>
       Returns (Some (if is_now p then now_df
                      else trail_df [name_A; name_B; name_C] [3; 2; 1] [6; 5; 4]));
     stock_board_industry_name_em :=
       Returns (Some (turn_df [name_A; name_B; name_C] [3; 1; 2]));
     stock_fund_flow_big_deal := Raises |}.

(** The instant window fails; everything else would succeed. *)
Definition ak_no_now : akshare :=
  {| stock_fund_flow_industry := fun p =>
       if is_now p then Raises else stock_fund_flow_industry ak_full p;
     stock_board_industry_name_em := stock_board_industry_name_em ak_full;
     stock_fund_flow_big_deal := Raises |}.

(** As [ak_full], but the turnover board does not list industry B. *)
Definition ak_gap : akshare :=
  {| stock_fund_flow_industry := stock_fund_flow_industry ak_full;
     stock_board_industry_name_em :=
       Returns (Some (turn_df [name_A; name_C] [3; 2]));
     stock_fund_flow_big_deal := Raises |}.

(** As [ak_full], but the 3-day window fails. *)
Definition ak_no_3d : akshare :=
  {| stock_fund_flow_industry := fun p =>
       if String.eqb p "3日排行" then Raises else stock_fund_flow_industry ak_full p;
     stock_board_industry_name_em := stock_board_industry_name_em ak_full;
     stock_fund_flow_big_deal := Raises |}.

(** As [ak_full], but the trailing windows do not list industry B. *)
Definition ak_short : akshare :=
  {| stock_fund_flow_industry := fun p =>
       Returns (Some (if is_now p then now_df
                      else trail_df [name_A; name_C] [3; 1] [6; 4]));
     stock_board_industry_name_em := stock_board_industry_name_em ak_full;
     stock_fund_flow_big_deal := Raises |}.

(** As [ak_full], but industry A is called "NA". *)
Definition name_NA : pyval := VStr (lit "NA").

Definition ak_na : akshare :=
  {| stock_fund_flow_industry := fun p =>
       Returns (Some (if is_now p then setitem now_df "行业" (ObjCol [name_NA; name_B])
                      else trail_df [name_NA; name_B] [3; 2] [6; 5]));
     stock_board_industry_name_em :=
       Returns (Some (turn_df [name_NA; name_B] [3; 1]));
     stock_fund_flow_big_deal := Raises |}.


Definition no_cache : disk := {| cache := Absent; writable := true |}.

End Samples.

(** ** Notions used in the statements *)

Section Notions.

Import IndustryFlowAnalyzer.
#[local] Open Scope string_scope.

(** Text made of decimal digits. *)
Definition digit_chars (ds : pystr) : Prop := Forall (fun c => is_digit c = true) ds.

(** Where a digit group ends: at the end of the text, or before a
    character that is neither a digit nor an underscore. *)
Definition stops (r : pystr) : Prop :=
  match r with
  | [] => True
  | c :: _ => is_digit c = false /\ c <> underscore
  end.

(** Text made of ASCII characters. *)
Definition ascii_text (s : pystr) : Prop := Forall (fun c => (c < 128)%N) s.



(** Every column has [n] cells. *)
Definition wf (n : nat) (df : DataFrame) : Prop :=
  Forall (fun kc => col_len (snd kc) = n) df.

(** The cells of a column as Python values; a score column has none. *)
Definition cells (c : column) : list pyval :=
  match c with
  | ObjCol xs => xs
  | FloatCol xs => map VFloat xs
  | PctCol _ => []
  end.

(** An indexer that names existing rows only. *)
Definition in_range (n : nat) (idx : list (option nat)) : Prop :=
  Forall (fun o => exists j, o = Some j /\ (j < n)%nat) idx.

(** The scores computed from the three ranked quantities. *)
Definition money_scores (n3 n5 n10 n20 : list pyfloat) : list score :=
  map times100 (rank_pct true (zip4 weighted n3 n5 n10 n20)).

Definition price_scores (pct : list pyfloat) : list score :=
  map times100 (rank_pct true pct).

Definition turnover_scores (turn : list pyfloat) : list score :=
  map times100 (rank_pct false turn).

Definition trend_scores (money price : list score) : list score :=
  map (smap round2) (zip_with sadd (map half money) (map half price)).

(** The industries of a frame: the cells of its name column. *)
Definition industries (df : DataFrame) : list pyval :=
  match find_col "行业名称" df with
  | Some c => cells c
  | None => []
  end.

(** Every industry of [a] is an industry of [b]. *)
Definition within (a b : DataFrame) : Prop :=
  forall v, In v (industries a) -> In v (industries b).

(** The signal column computed on lines 125-135. *)
Definition signals (n : nat) (money price turn trend : list score)
    (deals : list pyval) : list pystr :=
  np_select n
    [map (gt 85) trend; map (lt 25) trend;
     zip_with andb (zip_with andb (map (gt 75) money) (map (lt 50) price))
                   (map (gt 60) turn);
     zip_with andb (map (between 50 80) trend)
                   (map (fun v => bool_decide (v = VStr confirmed)) deals)]
    [label_offensive; label_receding; label_submerged; label_shaking]
    label_watch.

(** The frame with its four score columns. *)
Definition scored (main : DataFrame) (n3 n5 n10 n20 pct turn : list pyfloat)
  : DataFrame :=
  setitem
    (setitem
       (setitem
          (setitem main "资金分" (PctCol (money_scores n3 n5 n10 n20)))
          "价格分" (PctCol (price_scores pct)))
       "换手分" (PctCol (turnover_scores turn)))
    "趋势得分"
    (PctCol (trend_scores (money_scores n3 n5 n10 n20) (price_scores pct))).

(** The frame with its scores and its signal column. *)
Definition classified (main : DataFrame) (n : nat)
    (n3 n5 n10 n20 pct turn : list pyfloat) (deals : list pyval) : DataFrame :=
  setitem (scored main n3 n5 n10 n20 pct turn) "行业信号"
    (ObjCol (map VStr
       (signals n (money_scores n3 n5 n10 n20) (price_scores pct)
          (turnover_scores turn)
          (trend_scores (money_scores n3 n5 n10 n20) (price_scores pct))
          deals))).

(** The rule list of the specification: first match wins. *)
Definition spec_signal (trend money price turn : score) (deal : bool) : pystr :=
  if gt 85 trend then label_offensive
  else if lt 25 trend then label_receding
  else if gt 75 money && lt 50 price && gt 60 turn then label_submerged
  else if between 50 80 trend && deal then label_shaking
  else label_watch.

(** The cell of a score column, and of an object column, in row [i]. *)
Definition score_at (df : DataFrame) (col : string) (i : nat) : option score :=
  match find_col col df with
  | Some (PctCol xs) => xs !! i
  | _ => None
  end.

Definition value_at (df : DataFrame) (col : string) (i : nat) : option pyval :=
  match find_col col df with
  | Some (ObjCol xs) => xs !! i
  | _ => None
  end.

Definition all_labels : list pystr :=
  [label_offensive; label_receding; label_submerged; label_shaking; label_watch].



(** The number in row [i] of a column that takes part in the scores. *)
Definition number_at (df : DataFrame) (col : string) (i : nat) : option pyfloat :=
  match find_col col df with
  | Some c => match as_floats c with
              | inr xs => xs !! i
              | inl _ => None
              end
  | None => None
  end.

(** Text that the reader takes as it is: no field spells a missing
    value, and, unless the column is empty, the fields are not all
    numbers and not all truth values. *)
Definition kept_as_text (ss : list pystr) : Prop :=
  Forall (fun s => is_na s = false) ss
  /\ (ss = [] \/ (all_some csv_float ss = false /\ all_some csv_bool ss = false)).

(** A column name that [_normalize_fund_data] takes for a money column. *)
Definition has_keyword (k : string) : bool :=
  existsb (fun w => ParallelUtils.str_infix w k) ParallelUtils.zijin_keywords.

(** What [_normalize_fund_data] makes of a column of that name. *)
Definition to_wan_column (k : string) (c : column) : column :=
  if has_keyword k then
    match c with
    | ObjCol vs => FloatCol (map convert_to_wan vs)
    | _ => c
    end
  else c.

(** The worker returned something other than [None]. *)
Definition is_value {R} (o : ParallelUtils.outcome R) : bool :=
  match o with ParallelUtils.Value _ => true | _ => false end.

End Notions.

(** * Properties *)

(** ** The concurrent executor *)

Section PoolFacts.

Import ParallelUtils.

Context {A R : Type}.
Implicit Types (futures : list (outcome R)) (order : list nat).

Lemma collect_no_futures order acc : collect ([] : list (outcome R)) order acc = inr acc.
Proof. induction order as [|i order IH]; simpl; [reflexivity | exact IH]. Qed.

Lemma collect_settled futures order acc :
  Forall settles futures ->
  collect futures order acc
  = inr (acc ++ flat_map (fun i => yield (futures !! i)) order).
Proof.
  intros Hs. revert acc.
  induction order as [|i order IH]; intros acc; simpl.
  - by rewrite app_nil_r.
  - destruct (futures !! i) as [o|] eqn:Hi; simpl.
    + assert (settles o) as [-> | [r ->]].
      { eapply Forall_lookup_1; eassumption. }
      * apply IH.
      * rewrite IH. by rewrite <- app_assoc.
    + apply IH.
Qed.

Lemma yield_by_position (pre futures : list (outcome R)) :
  flat_map (fun i => yield ((pre ++ futures) !! i))
           (seq (length pre) (length futures))
  = values futures.
Proof.
  revert pre. induction futures as [|o futures IH]; intros pre; simpl.
  - reflexivity.
  - rewrite list_lookup_middle by reflexivity.
    f_equal.
    specialize (IH (pre ++ [o])).
    rewrite <- app_assoc, length_app in IH. simpl in IH.
    rewrite Nat.add_1_r in IH. exact IH.
Qed.

Lemma length_values futures :
  Forall settles futures ->
  length (values futures) = (length futures - count is_exception futures)%nat.
Proof.
  unfold count.
  induction 1 as [|o futures [-> | [r ->]] _ IH]; simpl.
  - reflexivity.
  - rewrite IH. reflexivity.
  - rewrite IH.
    pose proof (filter_length_le is_exception futures) as Hle.
    unfold values in *. simpl. lia.
Qed.

End PoolFacts.

Section PoolTheorems.

Import ParallelUtils.

Context {A R : Type}.

Lemma count_map (p : outcome R -> bool) (f : A -> outcome R) (l : list A) :
  count p (map f l) = count (fun x => p (f x)) l.
Proof.
  unfold count. induction l as [|x l IH]; simpl; [reflexivity|].
  destruct (p (f x)); simpl; congruence.
Qed.

Lemma returned_list (items : list A) (worker_func : A -> outcome R)
    (max_workers : Z) (order : list nat) :
  (1 <= max_workers)%Z ->
  Forall (fun x => settles (worker_func x)) items ->
  order ≡ₚ seq 0 (length items) ->
  exists results,
    returned (run_with_thread_pool (PyList items) worker_func max_workers order)
    = inr results
    /\ results ≡ₚ values (map worker_func items).
Proof.
  intros Hw Hs Hp. unfold run_with_thread_pool. simpl.
  destruct (Z.leb_spec max_workers 0) as [?|_]; [lia|]. simpl.
  assert (Forall settles (map worker_func items)) as Hs'
    by (apply Forall_map; exact Hs).
  rewrite (collect_settled _ _ _ Hs'). simpl.
  eexists; split; [reflexivity|].
  rewrite <- (yield_by_position [] (map worker_func items)). simpl.
  rewrite length_map.
  apply Permutation_flat_map, Hp.
Qed.

(** C6. For a list of N items of which exactly M make the worker raise
    an exception while the others return a value, the call returns N - M
    results: the values of the items that did not raise, whatever their
    positions and whatever order the futures complete in.  Every item is
    submitted, and a run with one worker returns the same results, up to
    order, as a run with any number of workers. *)
Theorem pool_isolates_failures (items : list A) (worker_func : A -> outcome R)
    (max_workers : Z) (order order1 : list nat) :
  (1 <= max_workers)%Z ->
  Forall (fun x => settles (worker_func x)) items ->
  order ≡ₚ seq 0 (length items) ->
  order1 ≡ₚ seq 0 (length items) ->
  exists results results1,
    returned (run_with_thread_pool (PyList items) worker_func max_workers order)
    = inr results
    /\ returned (run_with_thread_pool (PyList items) worker_func 1 order1)
       = inr results1
    /\ submitted (run_with_thread_pool (PyList items) worker_func max_workers order)
       = items
    /\ length results
       = (length items - count (fun x => is_exception (worker_func x)) items)%nat
    /\ results ≡ₚ values (map worker_func items)
    /\ results ≡ₚ results1.
Proof.
  intros Hw Hs Hp Hp1.
  destruct (returned_list items worker_func max_workers order Hw Hs Hp)
    as (results & Hr & Hv).
  destruct (returned_list items worker_func 1 order1 ltac:(lia) Hs Hp1)
    as (results1 & Hr1 & Hv1).
  exists results, results1.
  repeat split; try assumption.
  - unfold run_with_thread_pool. simpl.
    destruct (Z.leb_spec max_workers 0); [lia | reflexivity].
  - rewrite (Permutation_length Hv), length_values, length_map, count_map.
    + reflexivity.
    + apply Forall_map. exact Hs.
  - etransitivity; [exact Hv | symmetry; exact Hv1].
Qed.

(** C10. A generator passed as [items] is used up by the count on line
    53, so nothing is submitted to the pool and the call returns the
    empty list, whatever the worker would have done with the items. *)
Theorem generator_is_consumed (rest : list A) (worker_func : A -> outcome R)
    (max_workers : Z) (order : list nat) :
  (1 <= max_workers)%Z ->
  let r := run_with_thread_pool (Generator rest) worker_func max_workers order in
  returned r = inr [] /\ submitted r = [] /\ items_after r = Generator [].
Proof.
  intros Hw. unfold run_with_thread_pool. simpl.
  destruct (Z.leb_spec max_workers 0); [lia|]. simpl.
  rewrite collect_no_futures. repeat split.
Qed.

End PoolTheorems.

(** Five items, the worker raising on the one at index 3; the futures
    complete out of order. *)
Lemma pool_isolates_failures_witness :
  exists results results1,
    ParallelUtils.returned
      (ParallelUtils.run_with_thread_pool (ParallelUtils.PyList [0; 1; 2; 3; 4]%Z)
         (fun x => if (x =? 3)%Z then ParallelUtils.RaisesException
                   else ParallelUtils.Value (x * x)%Z)
         10 [4; 0; 3; 1; 2]%nat) = inr results
    /\ ParallelUtils.returned
         (ParallelUtils.run_with_thread_pool (ParallelUtils.PyList [0; 1; 2; 3; 4]%Z)
            (fun x => if (x =? 3)%Z then ParallelUtils.RaisesException
                      else ParallelUtils.Value (x * x)%Z)
            1 [0; 1; 2; 3; 4]%nat) = inr results1
    /\ ParallelUtils.submitted
         (ParallelUtils.run_with_thread_pool (ParallelUtils.PyList [0; 1; 2; 3; 4]%Z)
            (fun x => if (x =? 3)%Z then ParallelUtils.RaisesException
                      else ParallelUtils.Value (x * x)%Z)
            10 [4; 0; 3; 1; 2]%nat) = [0; 1; 2; 3; 4]%Z
    /\ length results = 4%nat
    /\ results ≡ₚ [0; 1; 4; 16]%Z
    /\ results ≡ₚ results1.
Proof.
  apply (pool_isolates_failures [0; 1; 2; 3; 4]%Z
           (fun x => if (x =? 3)%Z then ParallelUtils.RaisesException
                     else ParallelUtils.Value (x * x)%Z)
           10 [4; 0; 3; 1; 2]%nat [0; 1; 2; 3; 4]%nat).
  - lia.
  - repeat (apply List.Forall_cons; [unfold ParallelUtils.settles; simpl; eauto|]).
    apply List.Forall_nil.
  - simpl. apply Permutation_cons_app with (l1 := [0; 1; 2; 3]%nat) (l2 := []).
    simpl. apply perm_skip.
    apply Permutation_cons_app with (l1 := [1; 2]%nat) (l2 := []). reflexivity.
  - reflexivity.
Defined.

(** A generator over three items, with a worker that would succeed. *)
Lemma generator_is_consumed_witness :
  let r := ParallelUtils.run_with_thread_pool
             (ParallelUtils.Generator [1; 2; 3]%Z)
             (fun x => ParallelUtils.Value (x + 1)%Z) 10 [] in
  ParallelUtils.returned r = inr []
  /\ ParallelUtils.submitted r = []
  /\ ParallelUtils.items_after r = ParallelUtils.Generator [].
Proof.
  apply (generator_is_consumed [1; 2; 3]%Z
           (fun x => ParallelUtils.Value (x + 1)%Z) 10 []).
  lia.
Defined.

(** ** The analysis pipeline *)

Section PipelineFacts.

Import IndustryFlowAnalyzer.
#[local] Open Scope string_scope.

Lemma fetch_periods_now (ak : akshare) :
  fetch_periods ak !! "now"
  = if empty (_fetch_and_clean ak "即时") then None
    else Some (_fetch_and_clean ak "即时").
Proof.
  unfold fetch_periods, period_map. simpl.
  repeat match goal with
         | |- context [negb (empty ?x)] => destruct (empty x); simpl
         end;
    by simplify_map_eq.
Qed.

(** C3. When the instant window yields no dataset, the call returns the
    empty frame and leaves the disk as it was: no cache file is written,
    whatever the other windows and the enrichment sources hold. *)
Theorem no_instant_window_aborts (ak : akshare) (d : disk) :
  load_cache d = None ->
  empty (_fetch_and_clean ak "即时") = true ->
  run_analysis ak d = (inr empty_frame, d).
Proof.
  intros Hmiss Hnow. unfold run_analysis.
  rewrite Hmiss, fetch_periods_now, Hnow. reflexivity.
Qed.

End PipelineFacts.

Lemma no_instant_window_aborts_witness :
  IndustryFlowAnalyzer.run_analysis Samples.ak_no_now Samples.no_cache
  = (inr empty_frame, Samples.no_cache).
Proof.
  apply (no_instant_window_aborts Samples.ak_no_now Samples.no_cache);
    reflexivity.
Defined.

(** ** Numbers and their text *)

Section NumberText.

Import PyParse.

Lemma horner_snoc (ds : list Z) (d : Z) : horner (ds ++ [d]) = 10 * horner ds + d.
Proof. unfold horner. rewrite fold_left_app. reflexivity. Qed.

Lemma digit_of_residue (n : Z) :
  0 <= n ->
  is_digit (Z.to_N (48 + n mod 10)) = true
  /\ digit_val (Z.to_N (48 + n mod 10)) = n mod 10.
Proof.
  intros Hn. pose proof (Z.mod_pos_bound n 10 ltac:(lia)) as Hb.
  unfold is_digit, digit_val. split.
  - apply andb_true_iff. split; apply N.leb_le; lia.
  - lia.
Qed.

Lemma digits_aux_S (fuel : nat) (n : Z) (acc : pystr) :
  digits_aux (S fuel) n acc
  = if n / 10 =? 0 then Z.to_N (48 + n mod 10) :: acc
    else digits_aux fuel (n / 10) (Z.to_N (48 + n mod 10) :: acc).
Proof. reflexivity. Qed.

(** The digits written for [n] denote [n]. *)
Lemma digits_aux_spec (fuel : nat) : forall (n : Z) (acc : pystr),
  0 <= n < 2 ^ Z.of_nat (S fuel) ->
  exists ds,
    digits_aux (S fuel) n acc = ds ++ acc
    /\ ds <> []
    /\ digit_chars ds
    /\ horner (map digit_val ds) = n.
Proof.
  induction fuel as [|fuel IH]; intros n acc Hn;
    destruct (digit_of_residue n ltac:(lia)) as [Hd Hv].
  - assert (n / 10 = 0) as Hq by (apply Z.div_small; simpl in Hn; lia).
    exists [Z.to_N (48 + n mod 10)]. simpl. rewrite Hq. simpl.
    repeat split; [discriminate | by repeat constructor |].
    unfold horner. simpl. rewrite Hv. apply Z.mod_small. simpl in Hn. lia.
  - rewrite digits_aux_S. destruct (Z.eqb_spec (n / 10) 0) as [Hq|Hq].
    + exists [Z.to_N (48 + n mod 10)]. simpl.
      repeat split; [discriminate | by repeat constructor |].
      unfold horner. simpl. rewrite Hv.
      pose proof (Z.div_mod n 10 ltac:(lia)). lia.
    + destruct (IH (n / 10) (Z.to_N (48 + n mod 10) :: acc)) as (ds & He & Hne & Hds & Hh).
      { split; [apply Z.div_pos; lia|].
        apply Z.div_lt_upper_bound; [lia|].
        rewrite (Nat2Z.inj_succ (S fuel)), Z.pow_succ_r in Hn by lia. lia. }
      exists (ds ++ [Z.to_N (48 + n mod 10)]).
      rewrite He, <- app_assoc.
      split; [reflexivity|]. repeat split.
      * destruct ds; discriminate.
      * apply Forall_app. split; [exact Hds | by repeat constructor].
      * rewrite map_app. cbn [map]. rewrite horner_snoc, Hh, Hv.
        pose proof (Z.div_mod n 10 ltac:(lia)). lia.
Qed.

Lemma digits_spec (n : Z) :
  0 <= n ->
  digits n <> [] /\ digit_chars (digits n) /\ horner (map digit_val (digits n)) = n.
Proof.
  intros Hn. unfold digits.
  destruct (digits_aux_spec (Z.to_nat (Z.log2 n)) n []) as (ds & He & Hne & Hds & Hh).
  { split; [exact Hn|].
    rewrite Nat2Z.inj_succ, Z2Nat.id by apply Z.log2_nonneg.
    destruct (Z.eq_dec n 0) as [->|]; [reflexivity|].
    apply Z.log2_spec. lia. }
  rewrite He, app_nil_r. auto.
Qed.

Lemma is_digit_range (c : char) : is_digit c = true <-> (48 <= c <= 57)%N.
Proof.
  unfold is_digit. rewrite andb_true_iff, !N.leb_le. reflexivity.
Qed.

Lemma digit_run_digits (us : bool) (ds r : pystr) :
  digit_chars ds -> stops r ->
  digit_run us (ds ++ r) = (map digit_val ds, r).
Proof.
  intros Hds Hr. induction Hds as [|d ds Hd _ IH]; simpl.
  - destruct r as [|c r']; [reflexivity|]. destruct Hr as [Hc Hu].
    simpl. rewrite Hc.
    destruct (N.eqb_spec c underscore) as [?|_]; [contradiction|].
    by rewrite andb_false_r.
  - by rewrite Hd, IH.
Qed.

Lemma digitpart_digits (us : bool) (ds r : pystr) :
  ds <> [] -> digit_chars ds -> stops r ->
  digitpart us (ds ++ r) = Some (map digit_val ds, r).
Proof.
  intros Hne Hds Hr. destruct ds as [|d ds]; [contradiction|].
  apply Forall_cons in Hds as [Hd Hds].
  simpl. by rewrite Hd, digit_run_digits.
Qed.

Lemma sign_digit (d : char) (s : pystr) :
  is_digit d = true -> sign (d :: s) = (false, d :: s).
Proof.
  intros Hd%is_digit_range. unfold sign, minus, plus.
  destruct (N.eqb_spec d 45) as [?|_]; [lia|].
  destruct (N.eqb_spec d 43) as [?|_]; [lia|]. reflexivity.
Qed.

(** [str(z)] is a sign and the digits of the absolute value. *)
Lemma sign_int_str (z : Z) (r : pystr) :
  sign (int_str z ++ r) = (z <? 0, digits (Z.abs z) ++ r).
Proof.
  unfold int_str. destruct (Z.ltb_spec z 0) as [Hz|Hz].
  - simpl. by rewrite <- Z.abs_neq by lia.
  - rewrite Z.abs_eq by lia.
    destruct (digits_spec z Hz) as (Hne & Hds & _).
    destruct (digits z) as [|d ds]; [contradiction|].
    apply Forall_cons in Hds as [Hd _]. simpl. by apply sign_digit.
Qed.

Lemma signed_abs (z : Z) : signed (z <? 0) (Z.abs z) = z.
Proof. unfold signed. destruct (Z.ltb_spec z 0); lia. Qed.

(** The exponent part [e<z>] is read back as [z]. *)
Lemma exponent_int_str (us : bool) (z : Z) :
  exponent us (101%N :: int_str z) = Some z.
Proof.
  unfold exponent. simpl ((101 =? 101)%N || _).
  cbv beta iota.
  pose proof (sign_int_str z []) as Hs. rewrite !app_nil_r in Hs. rewrite Hs.
  destruct (digits_spec (Z.abs z) (Z.abs_nonneg z)) as (Hne & Hds & Hh).
  pose proof (digitpart_digits us (digits (Z.abs z)) [] Hne Hds I) as Hp.
  rewrite app_nil_r in Hp. rewrite Hp, Hh. f_equal. apply signed_abs.
Qed.

(** A mantissa of plain digits followed by an exponent part. *)
Lemma number_of_text (us neg : bool) (n e : Z) :
  0 <= n ->
  number us neg (digits n ++ 101%N :: int_str e) = Some (Fin (signed neg n) e).
Proof.
  intros Hn. unfold number, mantissa.
  destruct (digits_spec n Hn) as (Hne & Hds & Hh).
  rewrite (digitpart_digits us (digits n) (101%N :: int_str e) Hne Hds)
    by (split; [reflexivity | discriminate]).
  simpl ((101 =? dot)%N). cbv beta iota.
  rewrite exponent_int_str, app_nil_r, Hh. simpl. by rewrite Z.sub_0_r.
Qed.

Lemma strip_tight (c l : char) (mid pre : pystr) :
  is_space c = false -> is_space l = false ->
  c :: mid = pre ++ [l] ->
  strip (c :: mid) = c :: mid.
Proof.
  intros Hc Hl He. unfold strip, rstrip. simpl lstrip. rewrite Hc.
  rewrite He, rev_app_distr. simpl. rewrite Hl.
  change (l :: rev pre) with (rev [l] ++ rev pre).
  by rewrite <- rev_app_distr, rev_involutive.
Qed.

Lemma digit_not_space (c : char) : is_digit c = true -> is_space c = false.
Proof.
  intros Hc%is_digit_range. unfold is_space.
  repeat match goal with
         | |- context [(?a <=? ?b)%N] => destruct (N.leb_spec a b); try lia
         | |- context [(?a =? ?b)%N] => destruct (N.eqb_spec a b); try lia
         end; reflexivity.
Qed.

Lemma digit_lower (c : char) : is_digit c = true -> lower c = c /\ (c < 65)%N.
Proof.
  intros Hc%is_digit_range. unfold lower.
  destruct (N.leb_spec 65 c); [lia|]. simpl. split; [reflexivity | lia].
Qed.

(** [str(z)] has no blank at either end. *)
Lemma int_str_ends (z : Z) :
  exists c mid pre l,
    int_str z = c :: mid /\ int_str z = pre ++ [l]
    /\ is_space c = false /\ is_digit l = true.
Proof.
  destruct (digits_spec (Z.abs z) (Z.abs_nonneg z)) as (Hne & Hds & _).
  destruct (exists_last Hne) as (ds' & l & Hlast).
  assert (is_digit l = true) as Hl.
  { rewrite Hlast in Hds. apply Forall_app in Hds as [_ Hds].
    by apply Forall_cons in Hds as [Hds _]. }
  unfold int_str. destruct (Z.ltb_spec z 0) as [Hz|Hz].
  - rewrite <- Z.abs_neq by lia.
    exists minus, (digits (Z.abs z)), (minus :: ds'), l.
    rewrite Hlast. repeat split; auto.
  - rewrite <- (Z.abs_eq z) by lia.
    destruct (digits (Z.abs z)) as [|d ds] eqn:Hd; [contradiction|].
    exists d, ds, ds', l. repeat split; auto.
    apply digit_not_space. by apply Forall_cons in Hds as [Hds _].
Qed.

(** Reading back what [str] writes for a finite float. *)
Lemma py_float_float_str (m e : Z) : py_float (float_str (Fin m e)) = Some (Fin m e).
Proof.
  unfold py_float, float_str.
  destruct (int_str_ends m) as (c & mid & _ & _ & Hm & _ & Hc & _).
  destruct (int_str_ends e) as (_ & _ & pre & l & _ & He & _ & Hl).
  assert (strip (int_str m ++ 101%N :: int_str e) = int_str m ++ 101%N :: int_str e)
    as ->.
  { rewrite Hm. simpl.
    apply (strip_tight c l _ (c :: mid ++ 101%N :: pre) Hc (digit_not_space l Hl)).
    rewrite He. simpl. by rewrite <- app_assoc. }
  rewrite sign_int_str.
  destruct (digits_spec (Z.abs m) (Z.abs_nonneg m)) as (Hne & Hds & _).
  destruct (digits (Z.abs m)) as [|d ds] eqn:Hd; [contradiction|].
  apply Forall_cons in Hds as [Hdd _].
  destruct (digit_lower d Hdd) as [Hlow Hlt].
  unfold PyStr.eqb. simpl map. rewrite Hlow.
  rewrite !bool_decide_eq_false_2
    by (simpl; intros [= ->]; lia).
  simpl orb. cbv iota.
  rewrite <- Hd. rewrite number_of_text by apply Z.abs_nonneg.
  by rewrite signed_abs.
Qed.

(** Reading back what [str] writes for an integer. *)
Lemma py_float_int_str (z : Z) : py_float (int_str z) = Some (Fin z 0).
Proof.
  unfold py_float.
  destruct (int_str_ends z) as (c & mid & pre & l & Hm & He & Hc & Hl).
  assert (strip (int_str z) = int_str z) as ->.
  { rewrite Hm. apply (strip_tight c l _ pre Hc (digit_not_space l Hl)).
    by rewrite <- Hm. }
  pose proof (sign_int_str z []) as Hs. rewrite !app_nil_r in Hs. rewrite Hs.
  destruct (digits_spec (Z.abs z) (Z.abs_nonneg z)) as (Hne & Hds & Hh).
  pose proof (digitpart_digits true (digits (Z.abs z)) [] Hne Hds I) as Hp.
  rewrite app_nil_r in Hp.
  destruct (digits (Z.abs z)) as [|d ds] eqn:Hd; [contradiction|].
  pose proof Hds as Hds'. apply Forall_cons in Hds' as [Hdd _].
  destruct (digit_lower d Hdd) as [Hlow Hlt].
  unfold PyStr.eqb. simpl map. rewrite Hlow.
  rewrite !bool_decide_eq_false_2
    by (simpl; intros [= ->]; lia).
  simpl orb. cbv iota.
  unfold number, mantissa. rewrite Hp. simpl exponent. cbv iota.
  rewrite app_nil_r, Hh. simpl. by rewrite signed_abs.
Qed.

Lemma ascii_no_suffix (s : pystr) :
  ascii_text s -> contains yi s = false /\ contains wan s = false.
Proof.
  unfold contains.
  induction 1 as [|c s Hc _ [IH1 IH2]]; cbn [existsb]; [split; reflexivity|].
  rewrite IH1, IH2.
  destruct (N.eqb_spec yi c) as [E|_]; [unfold yi in E; lia|].
  destruct (N.eqb_spec wan c) as [E|_]; [unfold wan in E; lia|].
  split; reflexivity.
Qed.

Lemma int_str_ascii (z : Z) : ascii_text (int_str z).
Proof.
  assert (forall n, 0 <= n -> ascii_text (digits n)) as Hd.
  { intros n Hn. destruct (digits_spec n Hn) as (_ & Hds & _).
    eapply Forall_impl; [exact Hds|]. intros c Hc%is_digit_range. simpl. lia. }
  unfold int_str. destruct (Z.ltb_spec z 0).
  - apply Forall_cons. split; [reflexivity | apply Hd; lia].
  - by apply Hd.
Qed.

Lemma float_str_ascii (x : pyfloat) : ascii_text (float_str x).
Proof.
  destruct x as [|[]|m e]; simpl; try by repeat constructor.
  apply Forall_app. split; [apply int_str_ascii|].
  apply Forall_cons. split; [reflexivity | apply int_str_ascii].
Qed.

Lemma int_str_tight (z : Z) : strip (int_str z) = int_str z.
Proof.
  destruct (int_str_ends z) as (c & mid & pre & l & Hm & He & Hc & Hl).
  rewrite Hm. apply (strip_tight c l _ pre Hc (digit_not_space l Hl)).
  by rewrite <- Hm.
Qed.

Lemma float_str_tight (x : pyfloat) : strip (float_str x) = float_str x.
Proof.
  destruct x as [|[]|m e]; try reflexivity. simpl.
  destruct (int_str_ends m) as (c & mid & _ & _ & Hm & _ & Hc & _).
  destruct (int_str_ends e) as (_ & _ & pre & l & _ & He & _ & Hl).
  rewrite Hm. simpl.
  apply (strip_tight c l _ (c :: mid ++ 101%N :: pre) Hc (digit_not_space l Hl)).
  rewrite He. simpl. by rewrite <- app_assoc.
Qed.

(** [float(str(x))] gives [x] back. *)
Lemma py_float_str_float (x : pyfloat) : py_float (float_str x) = Some x.
Proof.
  destruct x as [|[]|m e]; try reflexivity.
  apply py_float_float_str.
Qed.



End NumberText.

(** ** The two normalizers *)

Section Normalizers.



Lemma suffixed_not_blank (c : char) (t : pystr) :
  contains c t = true -> c <> minus ->
  PyStr.eqb t [] || PyStr.eqb t (lit "-") = false.
Proof.
  intros Hc Hm. unfold PyStr.eqb.
  rewrite !bool_decide_eq_false_2; [reflexivity | |]; intros ->; simpl in Hc.
  - rewrite orb_false_r in Hc. apply N.eqb_eq in Hc. contradiction.
  - discriminate.
Qed.


End Normalizers.





(** ** Frames *)

Section FrameFacts.

Lemma find_col_setitem (df : DataFrame) (k k' : string) (c : column) :
  find_col k (setitem df k' c)
  = if String.eqb k k' then Some c else find_col k df.
Proof.
  induction df as [|[k0 c0] df IH]; simpl.
  - by destruct (String.eqb k k').
  - destruct (String.eqb_spec k' k0) as [->|Hne]; simpl.
    + by destruct (String.eqb k k0).
    + destruct (String.eqb_spec k k0) as [->|Hne'].
      * destruct (String.eqb_spec k0 k') as [->|_]; [contradiction | reflexivity].
      * exact IH.
Qed.

Lemma find_col_app (a b : DataFrame) (k : string) :
  find_col k (a ++ b)
  = match find_col k a with
    | Some c => Some c
    | None => find_col k b
    end.
Proof.
  induction a as [|[k0 c0] a IH]; simpl; [reflexivity|].
  by destruct (String.eqb k k0).
Qed.

Lemma find_col_take (idx : list (option nat)) (df : DataFrame) (k : string) :
  find_col k (take idx df) = take_col idx <$> find_col k df.
Proof.
  induction df as [|[k0 c0] df IH]; simpl; [reflexivity|].
  by destruct (String.eqb k k0).
Qed.

Lemma find_col_wf (n : nat) (df : DataFrame) (k : string) (c : column) :
  wf n df -> find_col k df = Some c -> col_len c = n.
Proof.
  induction 1 as [|[k0 c0] df Hc _ IH]; simpl; [discriminate|].
  destruct (String.eqb k k0); [intros [= <-]; exact Hc | exact IH].
Qed.

Lemma col_len_take (idx : list (option nat)) (c : column) :
  col_len (take_col idx c) = length idx.
Proof. destruct c; simpl; unfold take_opt; by rewrite length_map. Qed.

Lemma wf_take (idx : list (option nat)) (df : DataFrame) : wf (length idx) (take idx df).
Proof.
  unfold wf, take. apply Forall_map. apply Forall_forall.
  intros kc _. simpl. apply col_len_take.
Qed.

Lemma wf_setitem (n : nat) (df : DataFrame) (k : string) (c : column) :
  wf n df -> col_len c = n -> wf n (setitem df k c).
Proof.
  intros Hdf Hc. induction Hdf as [|[k0 c0] df H0 Hdf IH]; simpl.
  - by repeat constructor.
  - destruct (String.eqb k k0); by apply List.Forall_cons.
Qed.

Lemma wf_nrows (n : nat) (df : DataFrame) : wf n df -> df <> [] -> nrows df = n.
Proof. intros [|[k c] df' Hc _] Hne; [contradiction | exact Hc]. Qed.

Lemma col_len_fillna0 (c : column) : col_len (fillna0 c) = col_len c.
Proof. destruct c; simpl; by rewrite length_map. Qed.

Lemma setitem_not_nil (df : DataFrame) (k : string) (c : column) : setitem df k c <> [].
Proof. destruct df as [|[k0 c0] df]; simpl; [|destruct (String.eqb k k0)]; discriminate. Qed.

End FrameFacts.

(** ** Joins *)

Section JoinFacts.

Lemma col_vals_cells (c : column) (vs : list pyval) : col_vals c = inr vs -> cells c = vs.
Proof. destruct c; simpl; congruence. Qed.

Lemma col_vals_length (c : column) (vs : list pyval) :
  col_vals c = inr vs -> length vs = col_len c.
Proof. destruct c; simpl; intros [= <-]; by rewrite ?length_map. Qed.

Lemma take_opt_in_range {A} (na : A) (xs : list A) (idx : list (option nat)) (x : A) :
  in_range (length xs) idx -> In x (take_opt na xs idx) -> In x xs.
Proof.
  unfold take_opt. intros Hidx Hx. apply in_map_iff in Hx as (o & <- & Ho).
  eapply Forall_forall in Hidx; [|apply list_elem_of_In; exact Ho].
  destruct Hidx as (j & -> & Hj). by apply nth_In.
Qed.

(** Gathering existing rows brings no new cell. *)
Lemma cells_take (idx : list (option nat)) (c : column) (v : pyval) :
  in_range (col_len c) idx -> In v (cells (take_col idx c)) -> In v (cells c).
Proof.
  destruct c as [xs|xs|xs]; simpl; intros Hidx Hv.
  - eapply take_opt_in_range; eassumption.
  - apply in_map_iff in Hv as (x & <- & Hx). apply in_map.
    eapply take_opt_in_range; eassumption.
  - contradiction.
Qed.

Lemma join_indexer_left (lkeys rkeys : list pyval) (i : nat) :
  Forall (fun p => (i <= fst p < i + length lkeys)%nat) (join_indexer lkeys rkeys i).
Proof.
  revert i. induction lkeys as [|k ks IH]; intros i; simpl; [constructor|].
  apply Forall_app. split.
  - apply Forall_forall. intros p Hp%list_elem_of_In.
    destruct (positions k rkeys 0) as [|j js].
    + destruct Hp as [<-|[]]. simpl. lia.
    + change (In p (map (fun j => (i, Some j)) (j :: js))) in Hp.
      apply in_map_iff in Hp as (j' & <- & _). simpl. lia.
  - eapply Forall_impl; [apply (IH (S i))|]. simpl. intros p Hp. lia.
Qed.

Lemma join_indexer_in_range (lkeys rkeys : list pyval) :
  in_range (length lkeys) (map (fun p => Some (fst p)) (join_indexer lkeys rkeys 0)).
Proof.
  unfold in_range. apply Forall_forall. intros o Ho%list_elem_of_In.
  apply in_map_iff in Ho as (p & <- & Hp).
  pose proof (join_indexer_left lkeys rkeys 0) as Hall.
  eapply Forall_forall in Hall; [|apply list_elem_of_In; exact Hp].
  exists (fst p). split; [reflexivity | lia].
Qed.

Lemma find_col_filter_None (df : DataFrame) (k : string) (p : string * column -> bool) :
  find_col k df = None -> find_col k (List.filter p df) = None.
Proof.
  induction df as [|[k0 c0] df IH]; simpl; [reflexivity|].
  destruct (String.eqb k k0) eqn:E; [discriminate|].
  intros Hk. destruct (p (k0, c0)); simpl; [rewrite E|]; by apply IH.
Qed.

(** What a left join gives: a frame whose columns all have one length,
    which keeps every left column, gathered by an indexer that names
    existing left rows, and which has no column that neither side has. *)
Lemma merge_left_spec (left right : DataFrame) (on : string) (m : DataFrame) :
  merge_left left right on = inr m ->
  exists (lc : column) (idx : list (option nat)),
    find_col on left = Some lc
    /\ in_range (col_len lc) idx
    /\ wf (length idx) m
    /\ (forall k c, find_col k left = Some c ->
          find_col k m = Some (take_col idx c))
    /\ (forall k, find_col k left = None -> find_col k right = None ->
          find_col k m = None).
Proof.
  unfold merge_left, getitem, bind.
  destruct (find_col on left) as [lc|] eqn:Hl; [|discriminate].
  destruct (find_col on right) as [rc|] eqn:Hr; [|discriminate].
  destruct (col_vals lc) as [|lk] eqn:Hlk; [discriminate|].
  destruct (col_vals rc) as [|rk] eqn:Hrk; [discriminate|].
  intros [= <-].
  exists lc, (map (fun p => Some (fst p)) (join_indexer lk rk 0)).
  split; [reflexivity|]. split.
  { rewrite <- (col_vals_length lc lk Hlk). apply join_indexer_in_range. }
  split.
  { apply Forall_app. split.
    - apply wf_take.
    - rewrite length_map, <- (length_map snd). apply wf_take. }
  split.
  - intros k c Hk. by rewrite find_col_app, find_col_take, Hk.
  - intros k Hk Hk'. rewrite find_col_app, find_col_take, Hk. simpl.
    by rewrite find_col_take, find_col_filter_None.
Qed.

End JoinFacts.

(** Decides the comparisons of column names met in a goal. *)
Ltac names :=
  repeat match goal with
         | |- context [String.eqb ?a ?b] =>
             let v := eval vm_compute in (String.eqb a b) in
             change (String.eqb a b) with v
         end;
  cbv iota.

Ltac names_in H :=
  repeat match type of H with
         | context [String.eqb ?a ?b] =>
             let v := eval vm_compute in (String.eqb a b) in
             change (String.eqb a b) with v in H
         end;
  cbv iota in H.

(** ** The steps of the analysis *)

Section StepFacts.

Import IndustryFlowAnalyzer.
#[local] Open Scope string_scope.

Lemma insert_desc_perm (x : score * nat) (l : list (score * nat)) :
  insert_desc x l ≡ₚ x :: l.
Proof.
  induction l as [|y l IH]; simpl; [reflexivity|].
  destruct (before (fst x) (fst y)); [reflexivity|].
  rewrite IH. apply perm_swap.
Qed.

(** Sorting reorders the rows: the indexer is a permutation of the row
    positions. *)
Lemma sort_indexer_perm (keys : list score) :
  sort_indexer keys ≡ₚ seq 0 (length keys).
Proof.
  unfold sort_indexer.
  assert (forall l : list (score * nat), foldr insert_desc [] l ≡ₚ l) as Hs.
  { induction l as [|x l IH]; simpl; [reflexivity|].
    by rewrite insert_desc_perm, IH. }
  rewrite (Permutation_map snd (Hs _)).
  change (map snd ?l) with (l.*2).
  rewrite snd_zip; [reflexivity|]. by rewrite length_seq.
Qed.

Lemma sort_indexer_in_range (keys : list score) :
  in_range (length keys) (map Some (sort_indexer keys)).
Proof.
  unfold in_range. apply Forall_forall. intros o Ho%list_elem_of_In.
  apply in_map_iff in Ho as (j & <- & Hj).
  exists j. split; [reflexivity|].
  apply (Permutation_in _ (sort_indexer_perm keys)), in_seq in Hj. lia.
Qed.

Lemma sort_indexer_length (keys : list score) :
  length (sort_indexer keys) = length keys.
Proof. by rewrite (Permutation_length (sort_indexer_perm keys)), length_seq. Qed.

Lemma select_spec (df : DataFrame) (ks : list string) (m : DataFrame) :
  select df ks = inr m ->
  columns m = ks
  /\ forall k c, find_col k m = Some c -> find_col k df = Some c.
Proof.
  revert m. induction ks as [|k0 ks IH]; simpl; intros m.
  - intros [= <-]. split; [reflexivity | discriminate].
  - unfold getitem, bind.
    destruct (find_col k0 df) as [c0|] eqn:H0; [|discriminate].
    destruct (select df ks) as [|rest]; [discriminate|].
    intros [= <-]. destruct (IH rest eq_refl) as [Hc Hf].
    split; [simpl; by rewrite Hc|].
    intros k c. simpl. destruct (String.eqb_spec k k0) as [->|_].
    + by intros [= <-].
    + apply Hf.
Qed.

Lemma find_col_None (df : DataFrame) (k : string) :
  ~ In k (columns df) -> find_col k df = None.
Proof.
  induction df as [|[k0 c0] df IH]; simpl; [reflexivity|].
  intros Hk. destruct (String.eqb_spec k k0) as [->|_].
  - exfalso. apply Hk. by left.
  - apply IH. intros Hin. apply Hk. by right.
Qed.

Lemma find_col_Some_columns (df : DataFrame) (k : string) (c : column) :
  find_col k df = Some c -> In k (columns df).
Proof.
  intros Hk. destruct (in_dec string_dec k (columns df)) as [|Hn]; [assumption|].
  by rewrite find_col_None in Hk.
Qed.

Lemma columns_rename (m : list (string * string)) (df : DataFrame) :
  columns (rename m df) = map (rename_key m) (columns df).
Proof. unfold columns, rename. rewrite !map_map. reflexivity. Qed.

(** Renaming other columns keeps a column whose name is not involved. *)
Lemma find_col_rename (m : list (string * string)) (df : DataFrame) (k : string) :
  rename_key m k = k ->
  (forall k', In k' (columns df) -> rename_key m k' = k -> k' = k) ->
  find_col k (rename m df) = find_col k df.
Proof.
  intros Hk Hinj. induction df as [|[k0 c0] df IH]; simpl; [reflexivity|].
  destruct (String.eqb_spec k (rename_key m k0)) as [He|Hne].
  - symmetry in He. apply Hinj in He; [|by left]. subst k0.
    by rewrite String.eqb_refl.
  - destruct (String.eqb_spec k k0) as [->|_]; [congruence|].
    apply IH. intros k' Hin. apply Hinj. by right.
Qed.

Lemma add_scores_spec (main m : DataFrame) :
  add_scores main = inr m ->
  exists n3 n5 n10 n20 pct turn,
    floats_of main "净额_3d" = inr n3
    /\ floats_of main "净额_5d" = inr n5
    /\ floats_of main "净额_10d" = inr n10
    /\ floats_of main "净额_20d" = inr n20
    /\ floats_of main "涨幅_now" = inr pct
    /\ floats_of main "换手率" = inr turn
    /\ m = setitem
             (setitem
                (setitem
                   (setitem main "资金分" (PctCol (money_scores n3 n5 n10 n20)))
                   "价格分" (PctCol (price_scores pct)))
                "换手分" (PctCol (turnover_scores turn)))
             "趋势得分"
             (PctCol (trend_scores (money_scores n3 n5 n10 n20) (price_scores pct))).
Proof.
  unfold add_scores, bind.
  destruct (floats_of main "净额_3d") as [|n3]; [discriminate|].
  destruct (floats_of main "净额_5d") as [|n5]; [discriminate|].
  destruct (floats_of main "净额_10d") as [|n10]; [discriminate|].
  destruct (floats_of main "净额_20d") as [|n20]; [discriminate|].
  unfold floats_of at 1, scores_of, getitem, bind.
  rewrite !find_col_setitem. names.
  destruct (find_col "涨幅_now" main) as [cp|] eqn:Hp; [|discriminate].
  destruct (as_floats cp) as [|pct] eqn:Hpct; [discriminate|].
  unfold floats_of at 1, getitem, bind.
  rewrite !find_col_setitem. names.
  destruct (find_col "换手率" main) as [ct|] eqn:Ht; [|discriminate].
  destruct (as_floats ct) as [|turn] eqn:Hturn; [discriminate|].
  rewrite !find_col_setitem. names.
  cbv beta iota delta [as_scores]. intros [= Hm]. subst m.
  exists n3, n5, n10, n20, pct, turn.
  unfold floats_of, getitem, bind. rewrite Hp, Hpct, Ht, Hturn.
  repeat split; reflexivity.
Qed.

Lemma within_refl (a : DataFrame) : within a a.
Proof. by intros v. Qed.

Lemma within_trans (a b c : DataFrame) : within a b -> within b c -> within a c.
Proof. intros Hab Hbc v Hv. by apply Hbc, Hab. Qed.

Lemma within_same (a b : DataFrame) :
  find_col "行业名称" a = find_col "行业名称" b -> within a b.
Proof. intros He v. unfold industries. by rewrite He. Qed.

Lemma merge_left_within (left right m : DataFrame) :
  merge_left left right "行业名称" = inr m -> within m left.
Proof.
  intros (lc & idx & Hl & Hidx & _ & Hk & _)%merge_left_spec v.
  unfold industries. rewrite (Hk _ _ Hl), Hl. by apply cells_take.
Qed.

Lemma merge_left_wf (left right m : DataFrame) (on : string) :
  merge_left left right on = inr m -> exists n, wf n m.
Proof. intros (lc & idx & _ & _ & Hwf & _)%merge_left_spec. eauto. Qed.

(** The joins of the trailing windows: no new industry; and either some
    join took place, so that all columns have one length, or the frame
    is as it was. *)
Lemma merge_periods_spec (dfs : gmap string DataFrame) (ps : list string)
    (main m : DataFrame) :
  merge_periods dfs ps main = inr m ->
  within m main /\ ((exists n, wf n m) \/ m = main).
Proof.
  revert main. induction ps as [|p ps IH]; intros main.
  - intros [= <-]. split; [apply within_refl | by right].
  - cbn [merge_periods]. destruct (dfs !! p) as [d|]; [|apply IH].
    unfold bind.
    match goal with
    | |- context [select d ?ks] => destruct (select d ks) as [|tmp]
    end; [discriminate|].
    match goal with
    | |- context [merge_left main ?r ?k] =>
        destruct (merge_left main r k) as [|main'] eqn:Hm
    end; [discriminate|].
    intros [Hw Hc]%IH. split.
    + eapply within_trans; [exact Hw | eapply merge_left_within, Hm].
    + left. destruct Hc as [Hc | ->]; [exact Hc | eapply merge_left_wf, Hm].
Qed.

Lemma add_turnover_spec (ak : akshare) (main m : DataFrame) :
  add_turnover ak main = inr m ->
  within m main
  /\ ((exists n, wf n m)
      \/ m = setitem main "换手率" (FloatCol (repeat zero (nrows main)))).
Proof.
  unfold add_turnover. destruct (negb _).
  - intros Hm. split; [eapply merge_left_within, Hm|].
    left. eapply merge_left_wf, Hm.
  - intros [= <-]. split; [|by right].
    apply within_same. rewrite find_col_setitem. by names.
Qed.

Lemma add_big_deal_spec (ak : akshare) (main m : DataFrame) :
  add_big_deal ak main = inr m ->
  exists lead marks,
    find_col "领涨股" main = Some lead
    /\ length marks = col_len lead
    /\ Forall (fun v => v = VStr confirmed \/ v = VStr unconfirmed) marks
    /\ m = setitem main "大单印证" (ObjCol marks).
Proof.
  unfold add_big_deal, getitem, bind.
  destruct (find_col "领涨股" main) as [lead|]; [|discriminate].
  destruct (col_vals lead) as [|leads] eqn:Hl; [discriminate|].
  intros [= <-]. eexists lead, _.
  split; [reflexivity|]. split; [|split; [|reflexivity]].
  - by rewrite length_map, (col_vals_length _ _ Hl).
  - apply Forall_forall. intros v Hv%list_elem_of_In.
    apply in_map_iff in Hv as (x & <- & _). case_bool_decide; auto.
Qed.

Lemma fill_cols_spec (cols : list string) (main m : DataFrame) :
  fill_cols cols main = inr m ->
  (forall k, ~ In k cols -> find_col k m = find_col k main)
  /\ (forall n, wf n main -> wf n m)
  /\ Forall (fun k => exists c, find_col k m = Some c) cols
  /\ Forall (fun k => exists c, find_col k main = Some c) cols.
Proof.
  revert main. induction cols as [|col cols IH]; simpl; intros main.
  - intros [= <-]. repeat split; auto.
  - unfold getitem, bind.
    destruct (find_col col main) as [c|] eqn:Hc; [|discriminate].
    intros (Hk & Hwf & Hall & Hpre)%IH. split; [|split; [|split]].
    + intros k Hn. rewrite Hk by tauto. rewrite find_col_setitem.
      destruct (String.eqb_spec k col) as [->|_]; [tauto | reflexivity].
    + intros n Hn. apply Hwf, wf_setitem; [exact Hn|].
      rewrite col_len_fillna0. eapply find_col_wf; eassumption.
    + apply List.Forall_cons; [|exact Hall].
      destruct (in_dec string_dec col cols) as [Hin|Hn].
      * eapply Forall_forall in Hall; [exact Hall | by apply list_elem_of_In].
      * rewrite Hk by exact Hn. rewrite find_col_setitem, String.eqb_refl. eauto.
    + apply List.Forall_cons; [eauto|].
      eapply Forall_impl; [exact Hpre|]. simpl. intros k [c' Hc'].
      rewrite find_col_setitem in Hc'.
      destruct (String.eqb_spec k col) as [->|_]; eauto.
Qed.

Lemma mapM_length {A B} (f : A -> res B) (l : list A) (ys : list B) :
  mapM f l = inr ys -> length ys = length l.
Proof.
  revert ys. induction l as [|x l IH]; simpl; intros ys.
  - by intros [= <-].
  - unfold bind. destruct (f x); [discriminate|].
    destruct (mapM f l) as [|ys']; [discriminate|].
    intros [= <-]. simpl. f_equal. by apply IH.
Qed.

Lemma as_floats_length (c : column) (xs : list pyfloat) :
  as_floats c = inr xs -> length xs = col_len c.
Proof.
  destruct c as [vs|fs|ss]; simpl.
  - apply mapM_length.
  - by intros [= <-].
  - discriminate.
Qed.

Lemma floats_of_length (n : nat) (main : DataFrame) (k : string) (xs : list pyfloat) :
  wf n main -> floats_of main k = inr xs -> length xs = n.
Proof.
  intros Hwf. unfold floats_of, getitem, bind.
  destruct (find_col k main) as [c|] eqn:Hc; [|discriminate].
  intros Hxs%as_floats_length. rewrite Hxs. eapply find_col_wf; eassumption.
Qed.

Lemma rank_pct_length (asc : bool) (keys : list pyfloat) :
  length (rank_pct asc keys) = length keys.
Proof. unfold rank_pct. by rewrite length_map. Qed.

Lemma zip4_length {A B} (f : A -> A -> A -> A -> B) (n : nat) :
  forall a b c d : list A,
    length a = n -> length b = n -> length c = n -> length d = n ->
    length (zip4 f a b c d) = n.
Proof.
  induction n as [|n IH]; intros [|x a] [|y b] [|z c] [|w d]; simpl;
    try discriminate; intros Ha Hb Hc Hd; [reflexivity|].
  f_equal. apply IH; lia.
Qed.

Lemma np_select_length {A} (n : nat) (conds : list (list bool))
    (choices : list A) (d : A) :
  length (np_select n conds choices d) = n.
Proof. unfold np_select. by rewrite length_map, length_seq. Qed.

Lemma add_signal_spec (main m : DataFrame) :
  add_signal main = inr m ->
  exists money price turn trend deal deals,
    scores_of main "资金分" = inr money
    /\ scores_of main "价格分" = inr price
    /\ scores_of main "换手分" = inr turn
    /\ scores_of main "趋势得分" = inr trend
    /\ find_col "大单印证" main = Some deal
    /\ col_vals deal = inr deals
    /\ m = setitem main "行业信号"
             (ObjCol (map VStr (signals (nrows main) money price turn trend deals))).
Proof.
  unfold add_signal, bind, getitem.
  destruct (scores_of main "资金分") as [|money]; [discriminate|].
  destruct (scores_of main "价格分") as [|price]; [discriminate|].
  destruct (scores_of main "换手分") as [|turn]; [discriminate|].
  destruct (scores_of main "趋势得分") as [|trend]; [discriminate|].
  destruct (find_col "大单印证" main) as [deal|]; [|discriminate].
  destruct (col_vals deal) as [|deals] eqn:Hd; [discriminate|].
  intros [= <-]. exists money, price, turn, trend, deal, deals.
  repeat split; first [exact Hd | reflexivity].
Qed.

Lemma trend_scores_length (n : nat) (money price : list score) :
  length money = n -> length price = n -> length (trend_scores money price) = n.
Proof.
  intros Hm Hp. unfold trend_scores.
  rewrite length_map, length_zip_with, !length_map. lia.
Qed.

Lemma money_scores_length (n : nat) (n3 n5 n10 n20 : list pyfloat) :
  length n3 = n -> length n5 = n -> length n10 = n -> length n20 = n ->
  length (money_scores n3 n5 n10 n20) = n.
Proof.
  intros. unfold money_scores. rewrite length_map, rank_pct_length.
  by apply zip4_length.
Qed.

Lemma price_scores_length (pct : list pyfloat) :
  length (price_scores pct) = length pct.
Proof. unfold price_scores. by rewrite length_map, rank_pct_length. Qed.

Lemma turnover_scores_length (turn : list pyfloat) :
  length (turnover_scores turn) = length turn.
Proof. unfold turnover_scores. by rewrite length_map, rank_pct_length. Qed.

Lemma scored_wf (n : nat) (main : DataFrame) (n3 n5 n10 n20 pct turn : list pyfloat) :
  wf n main ->
  length n3 = n -> length n5 = n -> length n10 = n -> length n20 = n ->
  length pct = n -> length turn = n ->
  wf n (scored main n3 n5 n10 n20 pct turn).
Proof.
  intros. unfold scored.
  repeat apply wf_setitem; try assumption; simpl.
  - by apply money_scores_length.
  - by rewrite price_scores_length.
  - by rewrite turnover_scores_length.
  - apply trend_scores_length; [by apply money_scores_length|].
    by rewrite price_scores_length.
Qed.

(** The frame kept from the instant window has none of the trailing
    columns. *)
Lemma base_has_no_3d (now base : DataFrame) :
  select now base_cols = inr base ->
  find_col "净额_3d"
    (rename [("净额", "净额_now"); ("行业-涨跌幅", "涨幅_now")] base) = None.
Proof.
  intros [Hc _]%select_spec. apply find_col_None.
  rewrite columns_rename, Hc. simpl.
  intros H. repeat destruct H as [H|H]; try discriminate H. exact H.
Qed.

Lemma base_within (now base : DataFrame) :
  select now base_cols = inr base ->
  within (rename [("净额", "净额_now"); ("行业-涨跌幅", "涨幅_now")] base) now.
Proof.
  intros [Hc Hf]%select_spec v. unfold industries.
  rewrite find_col_rename; [| reflexivity |].
  - destruct (find_col "行业名称" base) as [c|] eqn:Hb; [|contradiction].
    by rewrite (Hf _ _ Hb).
  - intros k'. rewrite Hc. simpl.
    intros H. repeat destruct H as [H|H]; subst; try discriminate; tauto.
Qed.

Lemma wf_with_zero_column (n : nat) (main : DataFrame) (k : string) :
  wf n main ->
  exists n', wf n' (setitem main k (FloatCol (repeat zero (nrows main)))).
Proof.
  intros Hwf. destruct main as [|kc main'] eqn:E.
  - exists O. by repeat constructor.
  - exists n. rewrite <- E in *. apply wf_setitem; [exact Hwf|].
    simpl. rewrite repeat_length. apply wf_nrows; [exact Hwf | by rewrite E].
Qed.

(** How the frame stands before scoring, in a run that succeeds: all
    its columns have one length, and it holds no industry that the
    instant window does not hold. *)
Lemma prepared_spec (ak : akshare) (dfs : gmap string DataFrame)
    (now base main1 main2 main3 main : DataFrame) :
  select now base_cols = inr base ->
  merge_periods dfs ["3d"; "5d"; "10d"; "20d"]
    (rename [("净额", "净额_now"); ("行业-涨跌幅", "涨幅_now")] base) = inr main1 ->
  add_turnover ak main1 = inr main2 ->
  add_big_deal ak main2 = inr main3 ->
  fill_cols money_rank_cols main3 = inr main ->
  (exists n, wf n main) /\ within main now
  /\ exists marks, find_col "大单印证" main = Some (ObjCol marks).
Proof.
  intros Hsel [Hw1 Hc1]%merge_periods_spec [Hw2 Hc2]%add_turnover_spec
         (lead & marks & Hlead & Hlen & _ & ->)%add_big_deal_spec
         (Hsame & Hwf & _ & [c3 H3]%Forall_inv)%fill_cols_spec.
  split; [|split].
  - assert (exists n, wf n main2) as [n Hn].
    { destruct Hc2 as [Hc2 | ->]; [exact Hc2|].
      destruct Hc1 as [[n Hn] | ->]; [eapply wf_with_zero_column, Hn|].
      exfalso. revert H3. rewrite !find_col_setitem. names.
      by rewrite (base_has_no_3d now base Hsel). }
    exists n. apply Hwf, wf_setitem; [exact Hn|].
    simpl. rewrite Hlen. eapply find_col_wf; eassumption.
  - eapply within_trans; [|eapply within_trans; [exact Hw2|]].
    + apply within_same. rewrite Hsame.
      * rewrite find_col_setitem. by names.
      * simpl. intros H. repeat destruct H as [H|H]; try discriminate H. exact H.
    + eapply within_trans; [exact Hw1 | by apply base_within].
  - exists marks. rewrite Hsame.
    + rewrite find_col_setitem. by names.
    + simpl. intros H. repeat destruct H as [H|H]; try discriminate H. exact H.
Qed.

(** A run of [analyse] that succeeds: the result is the classified
    frame, sorted by trend score. *)
Lemma analyse_spec (ak : akshare) (dfs : gmap string DataFrame)
    (now result : DataFrame) :
  analyse ak dfs now = inr result ->
  exists (main : DataFrame) (n : nat) (n3 n5 n10 n20 pct turn : list pyfloat)
         (deals : list pyval),
    wf n main /\ within main now
    /\ floats_of main "净额_3d" = inr n3
    /\ floats_of main "净额_5d" = inr n5
    /\ floats_of main "净额_10d" = inr n10
    /\ floats_of main "净额_20d" = inr n20
    /\ floats_of main "涨幅_now" = inr pct
    /\ floats_of main "换手率" = inr turn
    /\ find_col "大单印证" main = Some (ObjCol deals)
    /\ result
       = take (map Some (sort_indexer
                 (trend_scores (money_scores n3 n5 n10 n20) (price_scores pct))))
              (classified main n n3 n5 n10 n20 pct turn deals).
Proof.
  unfold analyse, bind.
  destruct (select now base_cols) as [|base] eqn:Hsel; [discriminate|].
  destruct (merge_periods dfs _ _) as [|main1] eqn:Hmp; [discriminate|].
  destruct (add_turnover ak main1) as [|main2] eqn:Hat; [discriminate|].
  destruct (add_big_deal ak main2) as [|main3] eqn:Hbd; [discriminate|].
  destruct (fill_cols money_rank_cols main3) as [|main] eqn:Hfc; [discriminate|].
  destruct (add_scores main) as [|main5] eqn:Has; [discriminate|].
  destruct (add_signal main5) as [|main6] eqn:Hsig; [discriminate|].
  destruct (prepared_spec ak dfs now base main1 main2 main3 main
              Hsel Hmp Hat Hbd Hfc) as ([n Hwf] & Hin & marks & Hmarks).
  apply add_scores_spec in Has
    as (n3 & n5 & n10 & n20 & pct & turn & H3 & H5 & H10 & H20 & Hp & Ht & ->).
  fold (scored main n3 n5 n10 n20 pct turn) in Hsig.
  pose proof (scored_wf n main n3 n5 n10 n20 pct turn Hwf
                (floats_of_length _ _ _ _ Hwf H3) (floats_of_length _ _ _ _ Hwf H5)
                (floats_of_length _ _ _ _ Hwf H10) (floats_of_length _ _ _ _ Hwf H20)
                (floats_of_length _ _ _ _ Hwf Hp) (floats_of_length _ _ _ _ Hwf Ht))
    as Hwf5.
  apply add_signal_spec in Hsig
    as (money & price & turns & trend & deal & deals
        & Hm & Hpr & Htu & Htr & Hd & Hds & ->).
  rewrite (wf_nrows n _ Hwf5) by apply setitem_not_nil.
  revert Hm Hpr Htu Htr Hd. unfold scores_of, getitem, bind, scored.
  rewrite !find_col_setitem. names. simpl.
  intros [= <-] [= <-] [= <-] [= <-] Hd.
  rewrite Hmarks in Hd. injection Hd as <-. injection Hds as <-.
  unfold sort_by_trend, scores_of, getitem, bind.
  rewrite !find_col_setitem. names. simpl. intros [= <-].
  exists main, n, n3, n5, n10, n20, pct, turn, marks.
  repeat split; assumption || reflexivity.
Qed.

(** A call that misses the cache and returns a frame: either the instant
    window gave nothing, or the analysis ran on it and its result was
    handed to the cache writer. *)
Lemma run_analysis_spec (ak : akshare) (d d' : disk) (result : DataFrame) :
  load_cache d = None ->
  run_analysis ak d = (inr result, d') ->
  (empty (_fetch_and_clean ak "即时") = true /\ result = empty_frame /\ d' = d)
  \/ (empty (_fetch_and_clean ak "即时") = false
      /\ analyse ak (fetch_periods ak) (_fetch_and_clean ak "即时") = inr result
      /\ d' = save_cache d result).
Proof.
  intros Hmiss. unfold run_analysis. rewrite Hmiss, fetch_periods_now.
  destruct (empty (_fetch_and_clean ak "即时")).
  - intros [= <- <-]. by left.
  - destruct (analyse ak _ _) as [|r] eqn:Ha; intros [= <- <-]. by right.
Qed.

Lemma classified_industries (main : DataFrame) (n : nat)
    (n3 n5 n10 n20 pct turn : list pyfloat) (deals : list pyval) :
  find_col "行业名称" (classified main n n3 n5 n10 n20 pct turn deals)
  = find_col "行业名称" main.
Proof. unfold classified, scored. rewrite !find_col_setitem. by names. Qed.

Lemma trend_length (n : nat) (main : DataFrame) (n3 n5 n10 n20 pct : list pyfloat) :
  wf n main ->
  floats_of main "净额_3d" = inr n3 -> floats_of main "净额_5d" = inr n5 ->
  floats_of main "净额_10d" = inr n10 -> floats_of main "净额_20d" = inr n20 ->
  floats_of main "涨幅_now" = inr pct ->
  length (trend_scores (money_scores n3 n5 n10 n20) (price_scores pct)) = n.
Proof.
  intros Hwf H3 H5 H10 H20 Hp. apply trend_scores_length.
  - apply money_scores_length; eapply floats_of_length; eassumption.
  - rewrite price_scores_length. eapply floats_of_length; eassumption.
Qed.

(** C5. Every industry of the table that [run_analysis] computes is an
    industry of the instant window: one that only a trailing window or
    the turnover board holds never appears. *)
Theorem output_industries_from_instant (ak : akshare) (d d' : disk)
    (result : DataFrame) :
  load_cache d = None ->
  run_analysis ak d = (inr result, d') ->
  (forall v, In v (industries result) ->
             In v (industries (_fetch_and_clean ak "即时")))
  /\ (forall v, ~ In v (industries (_fetch_and_clean ak "即时")) ->
                ~ In v (industries result)).
Proof.
  intros Hmiss Hrun.
  assert (forall v, In v (industries result) ->
                    In v (industries (_fetch_and_clean ak "即时"))) as Hsub.
  { destruct (run_analysis_spec ak d d' result Hmiss Hrun)
      as [(_ & -> & _) | (_ & Ha & _)]; [intros v []|].
    apply analyse_spec in Ha
      as (main & n & n3 & n5 & n10 & n20 & pct & turn & deals
          & Hwf & Hin & H3 & H5 & H10 & H20 & Hp & _ & _ & ->).
    intros v Hv. apply Hin. revert Hv. unfold industries.
    rewrite find_col_take, classified_industries.
    destruct (find_col "行业名称" main) as [c|] eqn:Hc; simpl; [|tauto].
    apply cells_take.
    rewrite (find_col_wf n main _ c Hwf Hc).
    rewrite <- (trend_length n main n3 n5 n10 n20 pct Hwf H3 H5 H10 H20 Hp) at 1.
    apply sort_indexer_in_range. }
  split; [exact Hsub | intros v Hn Hv; by apply Hn, Hsub].
Qed.

End StepFacts.

(** Industry C is in every trailing window and on the turnover board,
    but not in the instant window. *)
Lemma output_industries_from_instant_witness :
  exists result d',
    IndustryFlowAnalyzer.run_analysis Samples.ak_full Samples.no_cache
    = (inr result, d')
    /\ industries result = [Samples.name_A; Samples.name_B]
    /\ ~ In Samples.name_C (industries result).
Proof.
  eexists _, _. split; [vm_compute; reflexivity|].
  split; [reflexivity|].
  eapply (proj2 (output_industries_from_instant Samples.ak_full Samples.no_cache
                   _ _ eq_refl ltac:(vm_compute; reflexivity))).
  vm_compute. intros [H|[H|[]]]; discriminate H.
Defined.

(** ** The signal of a row *)

Section SignalFacts.

Import IndustryFlowAnalyzer.
#[local] Open Scope string_scope.

Lemma lookup_map {A B} (f : A -> B) (l : list A) (i : nat) :
  map f l !! i = f <$> l !! i.
Proof.
  revert i. induction l as [|x l IH]; intros [|i]; simpl; try reflexivity.
  apply IH.
Qed.

Lemma nth_map_lookup {A} (f : A -> bool) (l : list A) (j : nat) (x : A) :
  l !! j = Some x -> nth j (map f l) false = f x.
Proof. intros Hx. by rewrite nth_lookup, lookup_map, Hx. Qed.

Lemma nth_zip_andb (a b : list bool) (j : nat) (x y : bool) :
  nth j a false = x -> nth j b false = y ->
  (j < length a)%nat -> (j < length b)%nat ->
  nth j (zip_with andb a b) false = x && y.
Proof.
  intros <- <- Ha Hb. rewrite !nth_lookup, lookup_zip_with.
  destruct (lookup_lt_is_Some_2 a j Ha) as [u ->].
  destruct (lookup_lt_is_Some_2 b j Hb) as [v ->]. reflexivity.
Qed.

(** Row [j] of the signal column is the label the rule list gives. *)
Lemma signals_row (n j : nat) (money price turn trend : list score)
    (deals : list pyval) (m p t tr : score) (dl : pyval) :
  (j < n)%nat ->
  money !! j = Some m -> price !! j = Some p -> turn !! j = Some t ->
  trend !! j = Some tr -> deals !! j = Some dl ->
  signals n money price turn trend deals !! j
  = Some (spec_signal tr m p t (bool_decide (dl = VStr confirmed))).
Proof.
  intros Hj Hm Hp Ht Htr Hd. unfold signals, np_select.
  rewrite lookup_map, lookup_seq_lt by exact Hj. simpl.
  rewrite !(nth_map_lookup _ _ _ _ Htr).
  rewrite (nth_zip_andb _ _ j (gt 75 m && lt 50 p) (gt 60 t)).
  - rewrite (nth_zip_andb _ _ j (between 50 80 tr) (bool_decide (dl = VStr confirmed))).
    + reflexivity.
    + by apply nth_map_lookup.
    + by apply (nth_map_lookup (fun v => bool_decide (v = VStr confirmed))).
    + rewrite length_map. eapply lookup_lt_Some, Htr.
    + rewrite length_map. eapply lookup_lt_Some, Hd.
  - apply nth_zip_andb; try by apply nth_map_lookup.
    + rewrite length_map. eapply lookup_lt_Some, Hm.
    + rewrite length_map. eapply lookup_lt_Some, Hp.
  - by apply nth_map_lookup.
  - rewrite length_zip_with, !length_map.
    apply lookup_lt_Some in Hm, Hp. lia.
  - rewrite length_map. eapply lookup_lt_Some, Ht.
Qed.

Lemma score_at_take (df : DataFrame) (col : string) (js : list nat) (i j : nat)
    (xs : list score) (x : score) :
  find_col col df = Some (PctCol xs) -> js !! i = Some j -> xs !! j = Some x ->
  score_at (take (map Some js) df) col i = Some x.
Proof.
  intros Hc Hj Hx. unfold score_at. rewrite find_col_take, Hc. simpl.
  unfold take_opt. rewrite !lookup_map, Hj. simpl. f_equal.
  by apply nth_lookup_Some.
Qed.

Lemma value_at_take (df : DataFrame) (col : string) (js : list nat) (i j : nat)
    (xs : list pyval) (x : pyval) :
  find_col col df = Some (ObjCol xs) -> js !! i = Some j -> xs !! j = Some x ->
  value_at (take (map Some js) df) col i = Some x.
Proof.
  intros Hc Hj Hx. unfold value_at. rewrite find_col_take, Hc. simpl.
  unfold take_opt. rewrite !lookup_map, Hj. simpl. f_equal.
  by apply nth_lookup_Some.
Qed.

Lemma nrows_take (idx : list (option nat)) (df : DataFrame) :
  df <> [] -> nrows (take idx df) = length idx.
Proof. destruct df as [|[k c] df]; [done|]. intros _. simpl. apply col_len_take. Qed.

(** Row [i] of a sorted frame is some row [j] of the frame before. *)
Lemma sorted_row (keys : list score) (i : nat) :
  (i < length keys)%nat ->
  exists j, sort_indexer keys !! i = Some j /\ (j < length keys)%nat.
Proof.
  intros Hi. rewrite <- sort_indexer_length in Hi.
  destruct (lookup_lt_is_Some_2 _ _ Hi) as [j Hj]. exists j. split; [exact Hj|].
  apply list_elem_of_lookup_2, list_elem_of_In in Hj.
  apply (Permutation_in _ (sort_indexer_perm keys)), in_seq in Hj. lia.
Qed.

(** The rows of the table a successful run returns: row [i] holds the
    four scores, the big-deal mark and the signal that the rule list
    gives for them. *)
Lemma result_row (ak : akshare) (dfs : gmap string DataFrame)
    (now result : DataFrame) (i : nat) :
  analyse ak dfs now = inr result ->
  (i < nrows result)%nat ->
  exists trend money price turn deal,
    score_at result "趋势得分" i = Some trend
    /\ score_at result "资金分" i = Some money
    /\ score_at result "价格分" i = Some price
    /\ score_at result "换手分" i = Some turn
    /\ value_at result "大单印证" i = Some deal
    /\ value_at result "行业信号" i
       = Some (VStr (spec_signal trend money price turn
                       (bool_decide (deal = VStr confirmed)))).
Proof.
  intros (main & n & n3 & n5 & n10 & n20 & pct & turn & deals
          & Hwf & _ & H3 & H5 & H10 & H20 & Hp & Ht & Hd & ->)%analyse_spec.
  pose proof (trend_length n main n3 n5 n10 n20 pct Hwf H3 H5 H10 H20 Hp) as Hlen.
  rewrite nrows_take, length_map, sort_indexer_length, Hlen
    by apply setitem_not_nil.
  intros Hi.
  destruct (sorted_row _ i ltac:(rewrite Hlen; exact Hi)) as (j & Hj & Hjn).
  rewrite Hlen in Hjn.
  assert (length (money_scores n3 n5 n10 n20) = n) as Lm
    by (apply money_scores_length; eapply floats_of_length; eassumption).
  assert (length (price_scores pct) = n) as Lp
    by (rewrite price_scores_length; eapply floats_of_length; eassumption).
  assert (length (turnover_scores turn) = n) as Lt
    by (rewrite turnover_scores_length; eapply floats_of_length; eassumption).
  assert (length deals = n) as Ld by exact (find_col_wf n main _ _ Hwf Hd).
  destruct (lookup_lt_is_Some_2 (money_scores n3 n5 n10 n20) j ltac:(lia)) as [m Hm].
  destruct (lookup_lt_is_Some_2 (price_scores pct) j ltac:(lia)) as [p Hpj].
  destruct (lookup_lt_is_Some_2 (turnover_scores turn) j ltac:(lia)) as [t Htj].
  destruct (lookup_lt_is_Some_2
              (trend_scores (money_scores n3 n5 n10 n20) (price_scores pct)) j
              ltac:(lia)) as [tr Htr].
  destruct (lookup_lt_is_Some_2 deals j ltac:(lia)) as [dl Hdl].
  exists tr, m, p, t, dl.
  repeat split.
  - eapply score_at_take; [|exact Hj|exact Htr].
    unfold classified, scored. rewrite !find_col_setitem. by names.
  - eapply score_at_take; [|exact Hj|exact Hm].
    unfold classified, scored. rewrite !find_col_setitem. by names.
  - eapply score_at_take; [|exact Hj|exact Hpj].
    unfold classified, scored. rewrite !find_col_setitem. by names.
  - eapply score_at_take; [|exact Hj|exact Htj].
    unfold classified, scored. rewrite !find_col_setitem. by names.
  - eapply value_at_take; [|exact Hj|exact Hdl].
    unfold classified, scored. rewrite !find_col_setitem. names. exact Hd.
  - eapply value_at_take; [|exact Hj|].
    + unfold classified. rewrite find_col_setitem. by names.
    + rewrite lookup_map. by rewrite (signals_row n j _ _ _ _ _ m p t tr dl).
Qed.

Lemma spec_signal_label (trend money price turn : score) (deal : bool) :
  In (spec_signal trend money price turn deal) all_labels.
Proof.
  unfold spec_signal, all_labels.
  repeat match goal with
         | |- context [if ?b then _ else _] => destruct b
         end; simpl; tauto.
Qed.

(** C2. In the table that [run_analysis] computes, the signal of every
    row is the label that the rule list of the specification gives for
    the scores and the big-deal mark of that row, the first rule that
    matches deciding; it is one of the five labels; and a row whose trend
    score exceeds 85 is labelled capital-offensive whatever the other
    rules say. *)
Theorem signal_by_first_match (ak : akshare) (d d' : disk) (result : DataFrame)
    (i : nat) :
  load_cache d = None ->
  run_analysis ak d = (inr result, d') ->
  (i < nrows result)%nat ->
  exists trend money price turn deal label,
    score_at result "趋势得分" i = Some trend
    /\ score_at result "资金分" i = Some money
    /\ score_at result "价格分" i = Some price
    /\ score_at result "换手分" i = Some turn
    /\ value_at result "大单印证" i = Some deal
    /\ value_at result "行业信号" i = Some (VStr label)
    /\ label = spec_signal trend money price turn
                 (bool_decide (deal = VStr confirmed))
    /\ In label all_labels
    /\ (gt 85 trend = true -> label = label_offensive).
Proof.
  intros Hmiss Hrun Hi.
  destruct (run_analysis_spec ak d d' result Hmiss Hrun)
    as [(_ & -> & _) | (_ & Ha & _)]; [simpl in Hi; lia|].
  destruct (result_row ak _ _ result i Ha Hi)
    as (trend & money & price & turn & deal & Htr & Hm & Hp & Ht & Hd & Hs).
  exists trend, money, price, turn, deal,
    (spec_signal trend money price turn (bool_decide (deal = VStr confirmed))).
  repeat split; try assumption.
  - apply spec_signal_label.
  - intros H85. unfold spec_signal. by rewrite H85.
Qed.

End SignalFacts.

(** The first row of the sample run: industry A, trend score 100. *)
Lemma signal_by_first_match_witness :
  exists result d',
    IndustryFlowAnalyzer.run_analysis Samples.ak_full Samples.no_cache
    = (inr result, d')
    /\ value_at result "行业信号" 0
       = Some (VStr IndustryFlowAnalyzer.label_offensive).
Proof.
  eexists _, _. split; [vm_compute; reflexivity|].
  destruct (signal_by_first_match Samples.ak_full Samples.no_cache _ _ 0%nat
              eq_refl ltac:(vm_compute; reflexivity) ltac:(vm_compute; lia))
    as (trend & money & price & turn & deal & label
        & Htr & _ & _ & _ & _ & Hs & _ & _ & H85).
  rewrite Hs. do 2 f_equal. apply H85.
  vm_compute in Htr. injection Htr as <-. reflexivity.
Defined.

(** ** Percentile ranks *)

Section RankFacts.

Import IndustryFlowAnalyzer.
#[local] Open Scope string_scope.





















End RankFacts.



(** With the 3-day window failing, the call raises [KeyError] on line
    116 and returns no table. *)
Lemma failed_window_raises :
  IndustryFlowAnalyzer.run_analysis Samples.ak_no_3d Samples.no_cache
  = (inl (KeyError "净额_3d"), Samples.no_cache).
Proof. vm_compute. reflexivity. Qed.

(** With industry B missing from the trailing windows and the turnover
    board complete, B's trailing net flows are filled with 0.0 but its
    trailing price changes stay NaN; with B missing from the turnover
    board, its turnover rate stays NaN. *)
Lemma unmatched_rows_keep_nan :
  (exists result d',
     IndustryFlowAnalyzer.run_analysis Samples.ak_short Samples.no_cache
     = (inr result, d')
     /\ value_at result "行业名称" 1 = Some Samples.name_B
     /\ number_at result "净额_3d" 1 = Some zero
     /\ number_at result "涨幅_3d" 1 = Some NaN)
  /\ (exists result d',
        IndustryFlowAnalyzer.run_analysis Samples.ak_gap Samples.no_cache
        = (inr result, d')
        /\ value_at result "行业名称" 1 = Some Samples.name_B
        /\ number_at result "换手率" 1 = Some NaN).
Proof.
  split; eexists _, _; (split; [vm_compute; reflexivity|]); repeat split.
Qed.

(** ** A window that fails *)

Section FailureFacts.

Import IndustryFlowAnalyzer.
#[local] Open Scope string_scope.

Lemma fetch_periods_lookup (ak : akshare) (name key : string) :
  In (name, key) period_map ->
  fetch_periods ak !! key
  = if empty (_fetch_and_clean ak name) then None
    else Some (_fetch_and_clean ak name).
Proof.
  unfold period_map. simpl.
  intros H. repeat destruct H as [H|H]; try contradiction;
    injection H as <- <-; unfold fetch_periods, period_map; simpl;
    repeat match goal with
           | |- context [negb (empty ?x)] => destruct (empty x); simpl
           end;
    by simplify_map_eq.
Qed.

Lemma columns_set_columns (ks : list string) (df : DataFrame) :
  length ks = length df -> columns (set_columns ks df) = ks.
Proof.
  unfold columns, set_columns. revert df.
  induction ks as [|k ks IH]; intros [|kc df]; simpl; try discriminate;
    [reflexivity|].
  intros [= Hl]. f_equal. by apply IH.
Qed.

Lemma select_length (df m : DataFrame) (ks : list string) :
  select df ks = inr m -> length m = length ks.
Proof.
  intros [Hc _]%select_spec. rewrite <- Hc. unfold columns. by rewrite length_map.
Qed.

(** A name that no joined window brings stays absent. *)
Lemma merge_periods_fresh (dfs : gmap string DataFrame) (k : string)
    (ps : list string) (main m : DataFrame) :
  Forall (fun q => dfs !! q = None
                   \/ ~ In k ["行业名称"; "净额_" ++ q; "涨幅_" ++ q]) ps ->
  find_col k main = None ->
  merge_periods dfs ps main = inr m ->
  find_col k m = None.
Proof.
  intros Hps. revert main. induction Hps as [|q ps Hq _ IH]; intros main Hk.
  - by intros [= <-].
  - cbn [merge_periods]. destruct (dfs !! q) as [dq|] eqn:Hd; [|by apply IH].
    destruct Hq as [Hq|Hq]; [discriminate|].
    unfold bind.
    match goal with
    | |- context [select dq ?ks] => destruct (select dq ks) as [|tmp] eqn:Hs
    end; [discriminate|].
    match goal with
    | |- context [merge_left main ?r ?on] =>
        destruct (merge_left main r on) as [|main'] eqn:Hm
    end; [discriminate|].
    apply IH.
    apply merge_left_spec in Hm as (lc & idx & _ & _ & _ & _ & Hnew).
    apply Hnew; [exact Hk|]. apply find_col_None.
    rewrite columns_set_columns; [exact Hq|].
    by rewrite (select_length _ _ _ Hs).
Qed.

Lemma turnover_columns (ak : akshare) (k : string) :
  ~ In k ["行业名称"; "换手率"] -> find_col k (_fetch_market_turnover ak) = None.
Proof.
  intros Hk. unfold _fetch_market_turnover.
  destruct (stock_board_industry_name_em ak) as [|[df|]]; try reflexivity.
  destruct (select df _) as [|sel] eqn:Hs; [reflexivity|].
  apply find_col_None. rewrite columns_set_columns; [exact Hk|].
  by rewrite (select_length _ _ _ Hs).
Qed.

Lemma add_turnover_fresh (ak : akshare) (k : string) (main m : DataFrame) :
  ~ In k ["行业名称"; "换手率"] ->
  find_col k main = None ->
  add_turnover ak main = inr m ->
  find_col k m = None.
Proof.
  intros Hk Hmain. unfold add_turnover. destruct (negb _).
  - intros (lc & idx & _ & _ & _ & _ & Hnew)%merge_left_spec.
    apply Hnew; [exact Hmain | by apply turnover_columns].
  - intros [= <-]. rewrite find_col_setitem.
    destruct (String.eqb_spec k "换手率") as [->|_]; [|exact Hmain].
    exfalso. apply Hk. simpl. tauto.
Qed.

Lemma base_has_no (now base : DataFrame) (k : string) :
  select now base_cols = inr base ->
  ~ In k ["行业名称"; "行业指数"; "涨幅_now"; "净额_now"; "流入资金"; "领涨股";
          "领涨股-涨跌幅"] ->
  find_col k
    (rename [("净额", "净额_now"); ("行业-涨跌幅", "涨幅_now")] base) = None.
Proof.
  intros [Hc _]%select_spec Hk. apply find_col_None.
  by rewrite columns_rename, Hc.
Qed.

(** Closes a goal saying that a name is not in a list of names. *)
Ltac absent :=
  let H := fresh in
  simpl; intros H; repeat destruct H as [H|H]; try discriminate H; exact H.

(** C1, where the code departs from it.  The specification has
    [run_analysis] still return its table when a trailing window fails.
    In the code, a run in which a trailing window yields nothing does not
    return a table: the column that line 116 fills was never created, and
    the call raises, leaving the disk as it was. *)
Theorem failed_window_is_fatal (ak : akshare) (d : disk) (name key : string) :
  load_cache d = None ->
  empty (_fetch_and_clean ak "即时") = false ->
  In (name, key) (tl period_map) ->
  empty (_fetch_and_clean ak name) = true ->
  exists e, run_analysis ak d = (inl e, d).
Proof.
  intros Hmiss Hnow Hin Hfail. unfold run_analysis.
  rewrite Hmiss, fetch_periods_now, Hnow.
  destruct (analyse ak _ _) as [e|result] eqn:Ha; [eauto|exfalso].
  revert Ha. unfold analyse, bind.
  destruct (select _ base_cols) as [|base] eqn:Hsel; [discriminate|].
  destruct (merge_periods _ _ _) as [|main1] eqn:Hmp; [discriminate|].
  destruct (add_turnover ak main1) as [|main2] eqn:Hat; [discriminate|].
  destruct (add_big_deal ak main2) as [|main3] eqn:Hbd; [discriminate|].
  destruct (fill_cols money_rank_cols main3) as [|main] eqn:Hfc; [discriminate|].
  intros _.
  apply add_big_deal_spec in Hbd as (lead & marks & _ & _ & _ & ->).
  apply fill_cols_spec in Hfc as (_ & _ & _ & Hpre).
  assert (fetch_periods ak !! key = None) as Hkey.
  { rewrite (fetch_periods_lookup ak name key), Hfail; [reflexivity|].
    by right. }
  assert (forall k,
            In k money_rank_cols ->
            ~ In k ["行业名称"; "行业指数"; "涨幅_now"; "净额_now"; "流入资金";
                    "领涨股"; "领涨股-涨跌幅"; "换手率"; "大单印证"] ->
            Forall (fun q => fetch_periods ak !! q = None
                             \/ ~ In k ["行业名称"; "净额_" ++ q; "涨幅_" ++ q])
                   ["3d"; "5d"; "10d"; "20d"] ->
            False) as Hfatal.
  { intros k Hk Hfresh Hps.
    eapply Forall_forall in Hpre; [|apply list_elem_of_In; exact Hk].
    destruct Hpre as [c Hc]. revert Hc. rewrite find_col_setitem.
    destruct (String.eqb_spec k "大单印证") as [->|_];
      [exfalso; apply Hfresh; simpl; tauto|].
    rewrite (add_turnover_fresh ak k main1 main2); [discriminate| | |exact Hat].
    - intros Hk'. apply Hfresh. simpl in *. tauto.
    - eapply merge_periods_fresh; [exact Hps| |exact Hmp].
      apply (base_has_no _ base k Hsel). intros Hk'. apply Hfresh.
      simpl in *. tauto. }
  simpl in Hin. repeat destruct Hin as [Hin|Hin]; try contradiction;
    injection Hin as <- <-.
  - apply (Hfatal "净额_3d"); [simpl; tauto | absent |].
    repeat apply List.Forall_cons; try apply List.Forall_nil;
      first [by left | right; absent].
  - apply (Hfatal "净额_5d"); [simpl; tauto | absent |].
    repeat apply List.Forall_cons; try apply List.Forall_nil;
      first [by left | right; absent].
  - apply (Hfatal "净额_10d"); [simpl; tauto | absent |].
    repeat apply List.Forall_cons; try apply List.Forall_nil;
      first [by left | right; absent].
  - apply (Hfatal "净额_20d"); [simpl; tauto | absent |].
    repeat apply List.Forall_cons; try apply List.Forall_nil;
      first [by left | right; absent].
Qed.

End FailureFacts.

(** The 3-day window fails while everything else succeeds. *)
Lemma failed_window_is_fatal_witness :
  exists e,
    IndustryFlowAnalyzer.run_analysis Samples.ak_no_3d Samples.no_cache
    = (inl e, Samples.no_cache).
Proof.
  apply (failed_window_is_fatal Samples.ak_no_3d Samples.no_cache
           "3日排行" "3d"); try reflexivity.
  simpl. tauto.
Defined.

(** ** The cache file *)

Section CacheFacts.

Import IndustryFlowAnalyzer.
#[local] Open Scope string_scope.

Lemma map_nth_seq_all {A} (l : list A) (d : A) (n : nat) :
  length l = n -> map (fun i => nth i l d) (seq 0 n) = l.
Proof.
  intros <-. apply list_eq. intros i. rewrite lookup_map.
  destruct (l !! i) as [x|] eqn:Hi.
  - rewrite lookup_seq_lt by (eapply lookup_lt_Some, Hi). simpl.
    f_equal. by apply nth_lookup_Some.
  - rewrite lookup_seq_ge; [reflexivity|]. by apply lookup_ge_None.
Qed.

Lemma col_texts_length (c : column) : length (col_texts c) = col_len c.
Proof. destruct c; simpl; by rewrite length_map. Qed.

Lemma find_col_map (g : column -> column) (df : DataFrame) (k : string) :
  find_col k (map (fun kc => (fst kc, g (snd kc))) df) = g <$> find_col k df.
Proof.
  induction df as [|[k0 c0] df IH]; simpl; [reflexivity|].
  by destruct (String.eqb k k0).
Qed.

(** Reading back a written frame: each column is inferred again from
    the text of its cells. *)
Lemma read_to_csv (n : nat) (df : DataFrame) :
  wf n df -> df <> [] ->
  read_csv (to_csv df)
  = inr (map (fun kc => (fst kc, infer_column (col_texts (snd kc)))) df).
Proof.
  intros Hwf Hne. unfold read_csv, to_csv. cbn [header records].
  rewrite (wf_nrows n df Hwf Hne).
  destruct (columns df) as [|k0 ks] eqn:Hcols.
  { destruct df; [contradiction | discriminate]. }
  rewrite <- Hcols. clear k0 ks Hcols.
  rewrite (proj2 (forallb_forall _ _)).
  2:{ intros r Hr. apply in_map_iff in Hr as (i & <- & _).
      apply Nat.leb_le. unfold columns. by rewrite !length_map. }
  f_equal. apply list_eq. intros j.
  rewrite list_lookup_imap, lookup_map. unfold columns. rewrite lookup_map.
  destruct (@lookup nat (string * column) (list (string * column)) _ j df)
    as [[k c]|] eqn:Hj; [|reflexivity]. simpl.
  do 3 f_equal. rewrite map_map.
  transitivity (map (fun i => nth i (col_texts c) []) (seq 0 n)).
  - apply map_ext. intros i.
    by rewrite nth_lookup, lookup_map, Hj.
  - apply map_nth_seq_all. rewrite col_texts_length.
    exact (Forall_lookup_1 _ _ _ _ Hwf Hj).
Qed.

Lemma all_some_false {A B} (f : A -> option B) (l : list A) (x : A) :
  In x l -> f x = None -> all_some f l = false.
Proof.
  induction l as [|y l IH]; simpl; [tauto|].
  intros [->|Hin] Hx; [by rewrite Hx|].
  destruct (f y); [by apply IH | reflexivity].
Qed.

Lemma filter_present (ss : list pystr) :
  Forall (fun s => is_na s = false) ss ->
  List.filter (fun f => negb (is_na f)) ss = ss.
Proof.
  induction 1 as [|s ss Hs _ IH]; simpl; [reflexivity|]. by rewrite Hs, IH.
Qed.

Lemma map_present (ss : list pystr) :
  Forall (fun s => is_na s = false) ss ->
  map (fun f => if is_na f then VFloat NaN else VStr f) ss = map VStr ss.
Proof.
  induction 1 as [|s ss Hs _ IH]; simpl; [reflexivity|]. by rewrite Hs, IH.
Qed.

(** The cells read back from a column of such text are the strings
    written. *)
Lemma infer_kept_text (ss : list pystr) (i : nat) :
  kept_as_text ss ->
  match infer_column ss with
  | ObjCol xs => xs !! i
  | _ => None
  end = map VStr ss !! i.
Proof.
  intros [Hna [-> | [Hf Hb]]]; [reflexivity|].
  unfold infer_column. rewrite (filter_present ss Hna), Hf, Hb.
  by rewrite (map_present ss Hna).
Qed.

Lemma col_texts_strings (ss : list pystr) : col_texts (ObjCol (map VStr ss)) = ss.
Proof.
  simpl. rewrite map_map. induction ss as [|s ss IH]; simpl; [reflexivity|].
  by rewrite IH.
Qed.

Lemma col_len_infer (fields : list pystr) : col_len (infer_column fields) = length fields.
Proof.
  unfold infer_column.
  repeat match goal with
         | |- context [if ?b then _ else _] => destruct b
         end; simpl; by rewrite length_map.
Qed.

(** What a cell of a text column is after a write and a read. *)
Lemma reloaded_text (n : nat) (df : DataFrame) (col : string) (ss : list pystr)
    (i : nat) :
  find_col col df = Some (ObjCol (map VStr ss)) ->
  kept_as_text ss ->
  value_at (map (fun kc => (fst kc, infer_column (col_texts (snd kc)))) df) col i
  = value_at df col i.
Proof.
  intros Hc Hss. unfold value_at.
  rewrite (find_col_map (fun c => infer_column (col_texts c))), Hc.
  change (match infer_column (col_texts (ObjCol (map VStr ss))) with
          | ObjCol xs => xs !! i
          | _ => None
          end = map VStr ss !! i).
  rewrite col_texts_strings. by apply infer_kept_text.
Qed.

Lemma select_row_in {A} (conds : list bool) (choices : list A) (d : A) :
  In (select_row conds choices d) (choices ++ [d]).
Proof.
  revert choices. induction conds as [|c conds IH]; intros [|x xs]; simpl.
  - auto.
  - right. apply in_or_app. right. by left.
  - auto.
  - destruct c; [by left | right; apply IH].
Qed.

Lemma signals_labels (n : nat) (money price turn trend : list score)
    (deals : list pyval) :
  Forall (fun l => In l all_labels) (signals n money price turn trend deals).
Proof.
  unfold signals, np_select. apply Forall_forall. intros l Hl%list_elem_of_In.
  apply in_map_iff in Hl as (i & <- & _).
  change all_labels with
    ([label_offensive; label_receding; label_submerged; label_shaking]
     ++ [label_watch])%list.
  apply select_row_in.
Qed.

Lemma label_text (l : pystr) :
  In l all_labels -> is_na l = false /\ csv_float l = None /\ csv_bool l = None.
Proof.
  unfold all_labels. simpl.
  intros H. repeat destruct H as [H|H]; try contradiction; subst l;
    repeat split; vm_compute; reflexivity.
Qed.

Lemma labels_kept (ls : list pystr) :
  Forall (fun l => In l all_labels) ls -> kept_as_text ls.
Proof.
  intros Hls. split.
  - eapply Forall_impl; [exact Hls|]. intros l Hl. by apply label_text.
  - destruct ls as [|l ls]; [by left|]. right.
    apply Forall_cons in Hls as [Hl _].
    destruct (label_text l Hl) as (_ & Hf & Hb).
    split; eapply all_some_false; try eassumption; by left.
Qed.

Lemma take_strings (ss : list pystr) (idx : list (option nat)) :
  in_range (length ss) idx ->
  take_opt (VFloat NaN) (map VStr ss) idx = map VStr (take_opt [] ss idx).
Proof.
  unfold take_opt. rewrite map_map.
  induction 1 as [|o idx (j & -> & Hj) _ IH]; simpl; [reflexivity|].
  rewrite IH. f_equal.
  rewrite (nth_indep _ (VFloat NaN) (VStr [])) by (by rewrite length_map).
  apply map_nth.
Qed.

Lemma take_forall {A} (P : A -> Prop) (na : A) (xs : list A) (idx : list (option nat)) :
  in_range (length xs) idx -> Forall P xs -> Forall P (take_opt na xs idx).
Proof.
  intros Hidx Hxs. apply Forall_forall. intros x Hx%list_elem_of_In.
  eapply Forall_forall; [exact Hxs|]. apply list_elem_of_In.
  eapply take_opt_in_range; eassumption.
Qed.

(** The signal column of the table a successful run returns holds
    labels only. *)
Lemma result_signals (ak : akshare) (dfs : gmap string DataFrame)
    (now result : DataFrame) :
  analyse ak dfs now = inr result ->
  exists n ls,
    wf n result /\ result <> []
    /\ find_col "行业信号" result = Some (ObjCol (map VStr ls))
    /\ Forall (fun l => In l all_labels) ls.
Proof.
  intros (main & n & n3 & n5 & n10 & n20 & pct & turn & deals
          & Hwf & _ & H3 & H5 & H10 & H20 & Hp & Ht & Hd & ->)%analyse_spec.
  pose proof (trend_length n main n3 n5 n10 n20 pct Hwf H3 H5 H10 H20 Hp) as Hlen.
  pose proof (sort_indexer_in_range
                (trend_scores (money_scores n3 n5 n10 n20) (price_scores pct)))
    as Hrange.
  rewrite Hlen in Hrange.
  eexists _, _. split; [apply wf_take|]. split.
  { unfold classified. destruct (setitem _ _ _) eqn:E; [|discriminate].
    by apply setitem_not_nil in E. }
  split.
  - rewrite find_col_take. unfold classified at 1.
    rewrite find_col_setitem. names. simpl.
    rewrite take_strings; [reflexivity|].
    unfold signals. by rewrite np_select_length.
  - apply take_forall; [|apply signals_labels].
    unfold signals. by rewrite np_select_length.
Qed.

(** C7, amended. When a run computes a table and writes it to the
    cache, and the industry names are text that the reader takes as it is
    (none spells a missing value, and they are not all numbers or all
    truth values), the next call under the same date key returns a table
    with as many rows, the same industry in every row and the same signal
    in every row. *)
Theorem cache_round_trip (ak ak' : akshare) (d d' : disk) (result : DataFrame)
    (names : list pystr) :
  load_cache d = None ->
  writable d = true ->
  run_analysis ak d = (inr result, d') ->
  find_col "行业名称" result = Some (ObjCol (map VStr names)) ->
  kept_as_text names ->
  exists reloaded,
    run_analysis ak' d' = (inr reloaded, d')
    /\ nrows reloaded = nrows result
    /\ forall i,
         value_at reloaded "行业名称" i = value_at result "行业名称" i
         /\ value_at reloaded "行业信号" i = value_at result "行业信号" i.
Proof.
  intros Hmiss Hw Hrun Hnames Hkept.
  destruct (run_analysis_spec ak d d' result Hmiss Hrun)
    as [(_ & -> & _) | (_ & Ha & ->)]; [discriminate|].
  destruct (result_signals ak _ _ result Ha) as (n & ls & Hwf & Hne & Hsig & Hls).
  exists (map (fun kc => (fst kc, infer_column (col_texts (snd kc)))) result).
  split; [|split].
  - unfold run_analysis, load_cache, save_cache. rewrite Hw. cbn [cache].
    by rewrite (read_to_csv n result Hwf Hne).
  - destruct result as [|[k c] rest]; [contradiction|]. simpl.
    by rewrite col_len_infer, col_texts_length.
  - intros i. split.
    + eapply reloaded_text; eassumption.
    + eapply reloaded_text; [exact n | exact Hsig | by apply labels_kept].
Qed.

End CacheFacts.

(** The sample run, read back from the cache it wrote. *)
Lemma cache_round_trip_witness :
  exists result d' reloaded,
    IndustryFlowAnalyzer.run_analysis Samples.ak_full Samples.no_cache
    = (inr result, d')
    /\ IndustryFlowAnalyzer.run_analysis Samples.ak_no_now d' = (inr reloaded, d')
    /\ nrows reloaded = nrows result
    /\ forall i,
         value_at reloaded "行业名称" i = value_at result "行业名称" i
         /\ value_at reloaded "行业信号" i = value_at result "行业信号" i.
Proof.
  eexists _, _.
  destruct (cache_round_trip Samples.ak_full Samples.ak_no_now Samples.no_cache
              _ _ [lit "A"; lit "B"] eq_refl eq_refl
              ltac:(vm_compute; reflexivity) ltac:(vm_compute; reflexivity))
    as (reloaded & Hrun & Hrows & Hsame).
  - split; [by repeat constructor|]. right. split; reflexivity.
  - exists reloaded. split; [vm_compute; reflexivity|]. auto.
Defined.

(** An industry called "NA" comes back from the cache as a missing
    value: the reloaded table does not name the same industries. *)
Lemma cache_reload_changes_name :
  exists result d' reloaded,
    IndustryFlowAnalyzer.run_analysis Samples.ak_na Samples.no_cache
    = (inr result, d')
    /\ IndustryFlowAnalyzer.run_analysis Samples.ak_na d' = (inr reloaded, d')
    /\ value_at result "行业名称" 0 = Some Samples.name_NA
    /\ value_at reloaded "行业名称" 0 = Some (VFloat NaN)
    /\ industries reloaded <> industries result.
Proof.
  eexists _, _, _. split; [vm_compute; reflexivity|].
  split; [vm_compute; reflexivity|].
  repeat split. vm_compute. discriminate.
Qed.

(** ** The decimal arithmetic denotes rational arithmetic *)

Section FloatFacts.

Lemma ten_pos (e : Z) : (0 < Qpower (10 # 1) e)%Q.
Proof. apply Qpower_0_lt. reflexivity. Qed.

Lemma dval_scale (m e k : Z) : 0 <= k -> (dval (m * 10 ^ k) (e - k) == dval m e)%Q.
Proof.
  intros Hk. unfold dval.
  rewrite inject_Z_mult, (Zpower_Qpower 10 k Hk).
  change (inject_Z 10) with (10 # 1)%Q.
  rewrite <- Qmult_assoc, <- Qpower_plus by discriminate.
  replace (k + (e - k)) with e by lia. reflexivity.
Qed.

Lemma Qcompare_scaled (a b : Z) (c : Q) :
  (0 < c)%Q -> Qcompare (inject_Z a * c) (inject_Z b * c) = Z.compare a b.
Proof.
  intros Hc. destruct (Z.compare_spec a b) as [->|Hlt|Hgt].
  - apply Qeq_alt. reflexivity.
  - apply Qlt_alt. apply Qmult_lt_compat_r; [exact Hc|]. by rewrite <- Zlt_Qlt.
  - apply Qgt_alt. apply Qmult_lt_compat_r; [exact Hc|]. by rewrite <- Zlt_Qlt.
Qed.

(** Finite values are ordered as the rationals they denote. *)
Lemma fcompare_dval (m1 e1 m2 e2 : Z) :
  fcompare (Fin m1 e1) (Fin m2 e2) = Some (Qcompare (dval m1 e1) (dval m2 e2)).
Proof.
  simpl. f_equal. set (e := Z.min e1 e2).
  rewrite <- (dval_scale m1 e1 (e1 - e)) by lia.
  rewrite <- (dval_scale m2 e2 (e2 - e)) by lia.
  replace (e1 - (e1 - e)) with e by lia. replace (e2 - (e2 - e)) with e by lia.
  unfold dval. symmetry. apply Qcompare_scaled, ten_pos.
Qed.

(** The product and the sum of finite values denote the product and the
    sum of the rationals. *)
Lemma fmul_dval (m1 e1 m2 e2 : Z) :
  exists m e, fmul (Fin m1 e1) (Fin m2 e2) = Fin m e
              /\ (dval m e == dval m1 e1 * dval m2 e2)%Q.
Proof.
  eexists _, _. split; [reflexivity|]. unfold dval.
  rewrite inject_Z_mult, Qpower_plus by discriminate. ring.
Qed.

Lemma fadd_dval (m1 e1 m2 e2 : Z) :
  exists m e, fadd (Fin m1 e1) (Fin m2 e2) = Fin m e
              /\ (dval m e == dval m1 e1 + dval m2 e2)%Q.
Proof.
  eexists _, _. split; [reflexivity|]. set (e := Z.min e1 e2).
  rewrite <- (dval_scale m1 e1 (e1 - e)) by lia.
  rewrite <- (dval_scale m2 e2 (e2 - e)) by lia.
  replace (e1 - (e1 - e)) with e by lia. replace (e2 - (e2 - e)) with e by lia.
  unfold dval. rewrite inject_Z_plus. ring.
Qed.

(** Dividing by 10000 moves the exponent by four. *)
Lemma div10000_dval (m e : Z) : (dval m (e - 4) == dval m e / 10000)%Q.
Proof.
  unfold dval. replace (e - 4) with (e + -4) by lia.
  rewrite Qpower_plus by discriminate.
  change ((10 # 1) ^ (-4))%Q with (1 # 10000)%Q. field.
Qed.

End FloatFacts.

(** * Further properties *)

(** ** Blanks around a value *)

Section StripFacts.

Lemma lstrip_tight (s : pystr) :
  lstrip s = [] \/ exists c t, lstrip s = c :: t /\ is_space c = false.
Proof.
  induction s as [|c s IH]; simpl; [by left|].
  destruct (is_space c) eqn:Hc; [exact IH|]. right. by exists c, s.
Qed.

Lemma lstrip_idem (s : pystr) : lstrip (lstrip s) = lstrip s.
Proof.
  destruct (lstrip_tight s) as [-> | (c & t & -> & Hc)]; [reflexivity|].
  simpl. by rewrite Hc.
Qed.

Lemma lstrip_snoc (u : pystr) (c : char) :
  is_space c = false -> lstrip (u ++ [c]) = lstrip u ++ [c].
Proof.
  intros Hc. induction u as [|a u IH]; simpl; [by rewrite Hc|].
  destruct (is_space a); [exact IH | reflexivity].
Qed.

Lemma rstrip_cons (c : char) (t : pystr) :
  is_space c = false -> rstrip (c :: t) = c :: rstrip t.
Proof.
  intros Hc. unfold rstrip. simpl rev.
  by rewrite lstrip_snoc, rev_app_distr.
Qed.

Lemma rstrip_idem (t : pystr) : rstrip (rstrip t) = rstrip t.
Proof. unfold rstrip. by rewrite rev_involutive, lstrip_idem. Qed.

(** Stripping twice is stripping once. *)
Lemma strip_idem (s : pystr) : strip (strip s) = strip s.
Proof.
  unfold strip.
  destruct (lstrip_tight s) as [-> | (c & t & -> & Hc)]; [reflexivity|].
  rewrite (rstrip_cons c t Hc). simpl lstrip. rewrite Hc.
  by rewrite (rstrip_cons c _ Hc), rstrip_idem.
Qed.

(** X1. Blanks around an amount string change nothing: both
    normalizers give the same result on a string and on the string
    with its leading and trailing blanks removed. *)
Theorem amount_ignores_blanks (s : pystr) :
  _normalize_amount (VStr (strip s)) = _normalize_amount (VStr s)
  /\ convert_to_wan (VStr (strip s)) = convert_to_wan (VStr s).
Proof.
  unfold _normalize_amount, convert_to_wan. simpl pd_isna. simpl py_str.
  cbv iota. by rewrite strip_idem.
Qed.

End StripFacts.

(** ** A numeric literal with a unit or a percent sign *)

Section LiteralFacts.

Lemma remove_absent (c : char) (s : pystr) : contains c s = false -> remove c s = s.
Proof.
  unfold contains, remove. induction s as [|a s IH]; simpl; [reflexivity|].
  intros [Ha Hs]%orb_false_iff. by rewrite Ha, IH.
Qed.

Lemma remove_snoc (c : char) (s : pystr) : remove c (s ++ [c]) = remove c s.
Proof.
  unfold remove. rewrite List.filter_app. simpl. rewrite N.eqb_refl. simpl.
  by rewrite app_nil_r.
Qed.

Lemma contains_snoc (c : char) (s : pystr) : contains c (s ++ [c]) = true.
Proof.
  unfold contains. rewrite existsb_app. simpl. rewrite N.eqb_refl.
  by rewrite orb_true_r.
Qed.

Lemma contains_snoc_other (c d : char) (s : pystr) :
  c <> d -> contains c (s ++ [d]) = contains c s.
Proof.
  intros Hne. unfold contains. rewrite existsb_app. simpl.
  destruct (N.eqb_spec c d) as [?|_]; [contradiction|]. by rewrite !orb_false_r.
Qed.

Lemma contains_lstrip (c : char) (t : pystr) :
  contains c t = false -> contains c (lstrip t) = false.
Proof.
  unfold contains. induction t as [|a t IH]; simpl; [done|].
  intros [Ha Ht]%orb_false_iff. destruct (is_space a); [by apply IH|].
  simpl. by rewrite Ha, Ht.
Qed.

(** A literal followed by a character that is not a blank: stripping
    removes the leading blanks only. *)
Lemma strip_snoc (t : pystr) (c : char) :
  is_space c = false -> strip (t ++ [c]) = lstrip t ++ [c].
Proof.
  intros Hc. unfold strip, rstrip.
  rewrite lstrip_snoc, rev_app_distr by exact Hc. simpl. rewrite Hc.
  change (c :: rev (lstrip t)) with (rev [c] ++ rev (lstrip t)).
  by rewrite <- rev_app_distr, rev_involutive.
Qed.

Lemma py_float_lstrip (t : pystr) : py_float (lstrip t) = py_float t.
Proof.
  unfold py_float.
  replace (strip (lstrip t)) with (strip t); [reflexivity|].
  unfold strip. by rewrite lstrip_idem.
Qed.

Lemma py_float_strip (t : pystr) : py_float (strip t) = py_float t.
Proof. unfold py_float. by rewrite strip_idem. Qed.

(** X2. A literal that [float] reads as [x], followed by the suffix for
    10^8, is normalized to [x] by [_normalize_amount] and to [x * 10000]
    by [convert_to_wan]; followed by the suffix for 10^4, to [x / 10000]
    and to [x]. *)
Theorem suffixed_literal (t : pystr) (x : pyfloat) :
  py_float t = Some x ->
  contains yi t = false -> contains wan t = false ->
  _normalize_amount (VStr (t ++ [yi])) = x
  /\ _normalize_amount (VStr (t ++ [wan])) = div10000 x
  /\ convert_to_wan (VStr (t ++ [yi])) = mul10000 x
  /\ convert_to_wan (VStr (t ++ [wan])) = x.
Proof.
  intros Hx Hy Hw.
  assert (is_space yi = false) as Sy by reflexivity.
  assert (is_space wan = false) as Sw by reflexivity.
  pose proof (contains_lstrip yi t Hy) as Hy'.
  pose proof (contains_lstrip wan t Hw) as Hw'.
  unfold _normalize_amount, convert_to_wan. simpl pd_isna. simpl py_str.
  cbv iota. rewrite !(strip_snoc _ _ Sy), !(strip_snoc _ _ Sw).
  rewrite !contains_snoc.
  rewrite (contains_snoc_other yi wan) by discriminate. rewrite Hy'.
  rewrite !remove_snoc, (remove_absent yi _ Hy'), (remove_absent wan _ Hw').
  rewrite py_float_lstrip, Hx.
  rewrite (suffixed_not_blank yi) by (apply contains_snoc || discriminate).
  rewrite (suffixed_not_blank wan) by (apply contains_snoc || discriminate).
  repeat split.
Qed.

(** X3. A literal that [float] reads as [x], followed by a percent
    sign, is cleaned to [x]. *)
Theorem percent_literal (t : pystr) (x : pyfloat) :
  py_float t = Some x ->
  contains percent t = false ->
  _clean_pct_string (VStr (t ++ [percent])) = x.
Proof.
  intros Hx Hp. unfold _clean_pct_string. simpl pd_isna. simpl py_str. cbv iota.
  by rewrite remove_snoc, (remove_absent percent t Hp), py_float_strip, Hx.
Qed.

End LiteralFacts.

Lemma suffixed_literal_witness :
  _normalize_amount (VStr (lit "-12.5" ++ [yi])) = Fin (-125) (-1)
  /\ _normalize_amount (VStr (lit "-12.5" ++ [wan])) = Fin (-125) (-5)
  /\ convert_to_wan (VStr (lit "-12.5" ++ [yi])) = Fin (-125) 3
  /\ convert_to_wan (VStr (lit "-12.5" ++ [wan])) = Fin (-125) (-1).
Proof.
  apply (suffixed_literal (lit "-12.5") (Fin (-125) (-1))); reflexivity.
Defined.

Lemma percent_literal_witness :
  _clean_pct_string (VStr (lit " 3.25" ++ [percent])) = Fin 325 (-2).
Proof.
  apply (percent_literal (lit " 3.25") (Fin 325 (-2))); reflexivity.
Defined.

(** ** Numbers given to [convert_to_wan] *)

Section WanFacts.

Lemma ends_with_digit_not_blank (pre : pystr) (l : char) :
  is_digit l = true ->
  PyStr.eqb (pre ++ [l]) [] || PyStr.eqb (pre ++ [l]) (lit "-") = false.
Proof.
  intros Hl. unfold PyStr.eqb.
  rewrite !bool_decide_eq_false_2; [reflexivity| |].
  - change (lit "-") with ([] ++ [minus]). intros [_ ->]%app_inj_tail.
    discriminate.
  - destruct pre; discriminate.
Qed.

Lemma int_str_not_blank (z : Z) :
  PyStr.eqb (int_str z) [] || PyStr.eqb (int_str z) (lit "-") = false.
Proof.
  destruct (int_str_ends z) as (_ & _ & pre & l & _ & -> & _ & Hl).
  by apply ends_with_digit_not_blank.
Qed.

Lemma float_str_not_blank (x : pyfloat) :
  PyStr.eqb (float_str x) [] || PyStr.eqb (float_str x) (lit "-") = false.
Proof.
  destruct x as [|[]|m e]; try reflexivity. simpl.
  destruct (int_str_ends e) as (_ & _ & pre & l & _ & -> & _ & Hl).
  change (int_str m ++ 101%N :: pre ++ [l])
    with (int_str m ++ (101%N :: pre) ++ [l]).
  rewrite app_assoc. by apply ends_with_digit_not_blank.
Qed.

(** X4. [convert_to_wan] returns every float as it is, NaN included
    (where [_normalize_amount] gives 0.0), and every integer as a float;
    None, a blank string and a lone dash give 0.0. *)
Theorem convert_to_wan_numbers :
  (forall x, convert_to_wan (VFloat x) = x)
  /\ (forall z, convert_to_wan (VInt z) = Fin z 0)
  /\ convert_to_wan (VFloat NaN) <> _normalize_amount (VFloat NaN)
  /\ convert_to_wan VNone = zero
  /\ (forall s, strip s = [] \/ strip s = lit "-" -> convert_to_wan (VStr s) = zero).
Proof.
  split; [|split; [|split; [|split]]].
  - intros x. unfold convert_to_wan. simpl py_str.
    rewrite float_str_tight, float_str_not_blank.
    destruct (ascii_no_suffix _ (float_str_ascii x)) as [-> ->].
    by rewrite py_float_str_float.
  - intros z. unfold convert_to_wan. simpl py_str.
    rewrite int_str_tight, int_str_not_blank.
    destruct (ascii_no_suffix _ (int_str_ascii z)) as [-> ->].
    by rewrite py_float_int_str.
  - discriminate.
  - reflexivity.
  - intros s [Hs|Hs]; unfold convert_to_wan; simpl py_str; by rewrite Hs.
Qed.

End WanFacts.

(** ** [_normalize_fund_data] *)

Section FundDataFacts.

Import ParallelUtils.

Lemma fund_data_columns (d : DataFrame) :
  empty d = false ->
  _normalize_fund_data (Some d)
  = Some (map (fun kc => (fst kc, to_wan_column (fst kc) (snd kc))) d).
Proof.
  intros He. unfold _normalize_fund_data. rewrite He. f_equal.
  apply map_ext. intros [k c]. unfold to_wan_column, has_keyword.
  cbn [fst snd].
  destruct (existsb (fun w => str_infix w k) zijin_keywords); [|reflexivity].
  by destruct c.
Qed.

Lemma col_len_to_wan (k : string) (c : column) :
  col_len (to_wan_column k c) = col_len c.
Proof.
  unfold to_wan_column. destruct (has_keyword k); [|reflexivity].
  destruct c; simpl; by rewrite ?length_map.
Qed.

Lemma to_wan_column_idem (k : string) (c : column) :
  to_wan_column k (to_wan_column k c) = to_wan_column k c.
Proof.
  unfold to_wan_column. destruct (has_keyword k); [|reflexivity]. by destruct c.
Qed.

Lemma empty_to_wan (d : DataFrame) :
  empty (map (fun kc => (fst kc, to_wan_column (fst kc) (snd kc))) d) = empty d.
Proof.
  destruct d as [|[k c] d]; [reflexivity|].
  unfold empty, nrows. cbn [map fst snd]. by rewrite col_len_to_wan.
Qed.

(** X5. Normalizing fund data twice is normalizing it once. *)
Theorem normalize_fund_data_idempotent (df : option DataFrame) :
  _normalize_fund_data (_normalize_fund_data df) = _normalize_fund_data df.
Proof.
  destruct df as [d|]; [|reflexivity].
  destruct (empty d) eqn:He.
  - assert (H : _normalize_fund_data (Some d) = Some d)
      by (unfold _normalize_fund_data; by rewrite He).
    by rewrite !H.
  - rewrite (fund_data_columns d He).
    rewrite fund_data_columns by (by rewrite empty_to_wan).
    f_equal. rewrite map_map. apply map_ext. intros [k c]. cbn [fst snd].
    by rewrite to_wan_column_idem.
Qed.

(** X6. [_normalize_fund_data] returns a frame with the same column
    names in the same order and columns of the same length; a column
    whose name holds no money keyword is returned as it is.  When the
    frame has rows, an [object] column whose name holds a keyword is
    converted cell by cell and every other column is kept; a frame
    without rows is returned unchanged, its [object] columns included. *)
Theorem normalize_fund_data_columns (d : DataFrame) :
  exists d',
    _normalize_fund_data (Some d) = Some d'
    /\ columns d' = columns d
    /\ (forall n, wf n d -> wf n d')
    /\ (forall k, has_keyword k = false -> find_col k d' = find_col k d)
    /\ (empty d = false ->
        forall k c, find_col k d = Some c ->
                    find_col k d' = Some (to_wan_column k c))
    /\ (empty d = true -> d' = d).
Proof.
  destruct (empty d) eqn:He.
  - exists d. unfold _normalize_fund_data. rewrite He.
    repeat split; auto; discriminate.
  - eexists. split; [exact (fund_data_columns d He)|].
    split; [|split; [|split; [|split]]].
    + unfold columns. rewrite map_map. reflexivity.
    + intros n Hwf. unfold wf in *. apply Forall_map.
      eapply Forall_impl; [exact Hwf|].
      intros [k c]. cbn [fst snd]. by rewrite col_len_to_wan.
    + intros k Hk. clear He.
      induction d as [|[k0 c0] d IH]; [reflexivity|].
      cbn [map fst snd find_col]. rewrite IH.
      destruct (String.eqb k k0) eqn:E; [|reflexivity].
      apply String.eqb_eq in E. subst k0.
      unfold to_wan_column. by rewrite Hk.
    + intros _ k c Hc. clear He.
      induction d as [|[k0 c0] d IH]; [discriminate|].
      cbn [map fst snd find_col] in *.
      destruct (String.eqb k k0) eqn:E.
      * apply String.eqb_eq in E. subst k0. by injection Hc as <-.
      * by apply IH.
    + discriminate.
Qed.

End FundDataFacts.

(** ** [run_with_thread_pool]: results and failures *)

Section PoolOrder.

Import ParallelUtils.

Context {A R : Type}.
Implicit Types (futures : list (outcome R)) (order : list nat).

Lemma collect_caught futures order acc :
  Forall (fun o => o <> RaisesOther) futures ->
  collect futures order acc
  = inr (acc ++ flat_map (fun i => yield (futures !! i)) order).
Proof.
  intros Hs. revert acc.
  induction order as [|i order IH]; intros acc; simpl.
  - by rewrite app_nil_r.
  - destruct (futures !! i) as [o|] eqn:Hi; simpl; [|apply IH].
    pose proof (Forall_lookup_1 _ _ _ _ Hs Hi) as Ho.
    destruct o as [r| | |]; simpl; try apply IH; [|congruence].
    rewrite IH. by rewrite <- app_assoc.
Qed.

Lemma collect_let_through futures order acc (i : nat) :
  In i order -> futures !! i = Some RaisesOther ->
  collect futures order acc = inl BaseException.
Proof.
  intros Hin Hi. revert acc.
  induction order as [|j order IH]; intros acc; [destruct Hin|].
  simpl. destruct Hin as [-> | Hin].
  - by rewrite Hi.
  - destruct (futures !! j) as [[r| | |]|]; auto.
Qed.

Lemma length_values_count futures :
  length (values futures) = count is_value futures.
Proof.
  unfold count, values.
  induction futures as [|o futures IH]; [reflexivity|].
  destruct o; simpl in *; rewrite ?IH; reflexivity.
Qed.

(** X7. When no call of the worker raises anything but an [Exception],
    the list returned holds the values of the futures in the order in
    which they completed: [None] results and failed calls add nothing.
    When every future completes once, these are the values of all the
    items, as many as there are calls that returned a value; when the
    futures complete in submission order, they come in the order of the
    items. *)
Theorem pool_results_in_completion_order (items : list A)
    (worker_func : A -> outcome R) (max_workers : Z) (order : list nat) :
  (1 <= max_workers)%Z ->
  Forall (fun x => worker_func x <> RaisesOther) items ->
  exists results,
    returned (run_with_thread_pool (PyList items) worker_func max_workers order)
    = inr results
    /\ results = flat_map (fun i => yield (worker_func <$> items !! i)) order
    /\ (order ≡ₚ seq 0 (length items) ->
        results ≡ₚ values (map worker_func items)
        /\ length results = count (fun x => is_value (worker_func x)) items)
    /\ (order = seq 0 (length items) ->
        results = values (map worker_func items)).
Proof.
  intros Hw Hs. unfold run_with_thread_pool. simpl.
  destruct (Z.leb_spec max_workers 0) as [?|_]; [lia|]. simpl.
  assert (Forall (fun o => o <> RaisesOther) (map worker_func items)) as Hs'
    by (apply Forall_map; exact Hs).
  rewrite (collect_caught _ _ _ Hs'). simpl.
  eexists; split; [reflexivity|].
  assert (Hy : flat_map (fun i => yield (map worker_func items !! i))
                 (seq 0 (length items))
               = values (map worker_func items)).
  { rewrite <- (yield_by_position [] (map worker_func items)). simpl.
    by rewrite length_map. }
  split; [|split].
  - apply flat_map_ext. intros i. by rewrite list_lookup_fmap.
  - intros Hp.
    assert (Hv : flat_map (fun i => yield (map worker_func items !! i)) order
                 ≡ₚ values (map worker_func items)).
    { rewrite <- Hy. apply Permutation_flat_map, Hp. }
    split; [exact Hv|].
    by rewrite (Permutation_length Hv), length_values_count, count_map.
  - intros ->. exact Hy.
Qed.

(** X8. What the call does not swallow.  With no worker thread allowed
    the executor raises [ValueError] before anything is submitted.
    Otherwise, when some call of the worker raises an exception that is
    not an [Exception] and its future completes, that exception leaves
    [run_with_thread_pool]: no list is returned, whatever the other
    calls produced. *)
Theorem pool_lets_through (items : list A) (worker_func : A -> outcome R)
    (max_workers : Z) (order : list nat) (i : nat) (x : A) :
  items !! i = Some x ->
  worker_func x = RaisesOther ->
  In i order ->
  returned (run_with_thread_pool (PyList items) worker_func max_workers order)
  = inl (if (max_workers <=? 0)%Z then ValueError else BaseException).
Proof.
  intros Hi Hx Hin. unfold run_with_thread_pool. simpl.
  destruct (max_workers <=? 0)%Z; [reflexivity|]. simpl.
  apply collect_let_through with (i := i); [exact Hin|].
  by rewrite list_lookup_fmap, Hi; simpl; rewrite Hx.
Qed.

End PoolOrder.

(** Four items; the second returns [None], the third raises an
    [Exception]; the futures complete in the order 3, 0, 2, 1. *)
Lemma pool_results_in_completion_order_witness :
  exists results,
    ParallelUtils.returned
      (ParallelUtils.run_with_thread_pool (ParallelUtils.PyList [1; 2; 3; 4]%Z)
         (fun x => if (x =? 2)%Z then ParallelUtils.ReturnsNone
                   else if (x =? 3)%Z then ParallelUtils.RaisesException
                   else ParallelUtils.Value (10 * x)%Z)
         4 [3; 0; 2; 1]%nat) = inr results
    /\ results = [40; 10]%Z.
Proof.
  destruct (pool_results_in_completion_order [1; 2; 3; 4]%Z
           (fun x => if (x =? 2)%Z then ParallelUtils.ReturnsNone
                     else if (x =? 3)%Z then ParallelUtils.RaisesException
                     else ParallelUtils.Value (10 * x)%Z)
           4 [3; 0; 2; 1]%nat) as (results & Hr & Hv & _).
  - lia.
  - repeat (apply List.Forall_cons; [simpl; discriminate|]).
    apply List.Forall_nil.
  - exists results. split; [exact Hr | exact Hv].
Defined.

(** The third of three calls raises [KeyboardInterrupt]. *)
Lemma pool_lets_through_witness :
  ParallelUtils.returned
    (ParallelUtils.run_with_thread_pool (ParallelUtils.PyList [1; 2; 3]%Z)
       (fun x => if (x =? 3)%Z then ParallelUtils.RaisesOther
                 else ParallelUtils.Value x)
       2 [1; 2; 0]%nat) = inl BaseException.
Proof.
  apply (pool_lets_through [1; 2; 3]%Z
           (fun x => if (x =? 3)%Z then ParallelUtils.RaisesOther
                     else ParallelUtils.Value x)
           2 [1; 2; 0]%nat 2%nat 3%Z).
  - reflexivity.
  - reflexivity.
  - simpl. auto.
Defined.
